(** * OnHyper marketing video: frame generator

    A shallow embedding of [marketing/video-parts/create_slides.py] and the
    properties of its timeline, reveal rules, font fallback and fade
    envelopes, and of [extension/icons/generate_icons.py] with the geometry
    of the status icons.

    Modelling conventions.
    - Python [int] is [Z]; Python [str] is a list of Unicode code points
      ([len] counts code points, so the emoji of the script count for one).
    - Python [float] is modelled twice. The loops of [main] and the frames
      they save are stated over exact rationals [Q], fed the exact quotient
      [i / frames]: the properties there are about thresholds and counts.
      [int(x)] on a float truncates toward zero; [min(a, b)] keeps [a]
      unless [b < a]. Module [Binary64] writes the same expressions, and the
      frame function, over IEEE binary64 floats: the character count of the
      typing effect rounds twice, and what it is on an arbitrary float is
      stated there. [Binary64Facts] checks that on each of the 360 frames
      of the chat demo both arithmetics draw the same thing.
    - A raised exception is a value [Raise e] of the [result] type; the
      drawing calls on an [ImageDraw] are the state of a small state and
      error monad whose state is the list of drawing operations issued so
      far, in drawing order (back to front).
    - Pillow and the file system are outside the script: the font files
      present, the fonts that load, the measured text boxes and the effect
      of a drawing call on a pixel are fields of an environment [Env]; an
      image is the canvas colour together with the operations drawn on it,
      or the blend of two images.
    - Drawing a text and writing a file are taken to succeed: [os.makedirs],
      [frame.save] and a [draw.text] that raises are not modelled, so what
      is proved of [main] and its loops describes a run that completes. In
      the icon generator the refusals of Pillow that depend on the size are
      modelled: a negative size, and a box whose corners are out of
      order. *)

From Stdlib Require Import ZArith QArith Qround Qminmax List Ascii Bool Lia.
From Stdlib Require String PrimFloat FloatOps SpecFloat FloatAxioms Uint63.
From Stdlib Require DecimalString.
Import ListNotations String.StringSyntax.
Delimit Scope string_scope with string.

Local Open Scope Z_scope.

(** ** Python primitives *)

Module Py.

Definition pystr := list N.

(** An ASCII literal as a Python string. *)
Definition str (s : String.string) : pystr :=
  List.map N_of_ascii (String.list_ascii_of_string s).
Arguments str s%_string.

Definition len {A} (xs : list A) : Z := Z.of_nat (List.length xs).

(** [xs[:k]]: a negative [k] counts from the end. *)
Definition slice_to {A} (xs : list A) (k : Z) : list A :=
  if k <? 0 then firstn (Z.to_nat (len xs + k)) xs
  else firstn (Z.to_nat k) xs.

(** [range(n)] *)
Definition range (n : Z) : list Z :=
  List.map Z.of_nat (seq 0 (Z.to_nat n)).

Fixpoint enumerate_from {A} (k : Z) (xs : list A) : list (Z * A) :=
  match xs with
  | [] => []
  | x :: r => (k, x) :: enumerate_from (k + 1) r
  end.

(** [enumerate(xs)] *)
Definition enumerate {A} (xs : list A) : list (Z * A) := enumerate_from 0 xs.

(** [sum(xs)] *)
Definition sum (xs : list Z) : Z := fold_right Z.add 0 xs.

Definition Qltb (x y : Q) : bool := negb (Qle_bool y x).

(** [min(a, b)] on floats. *)
Definition min (a b : Q) : Q := if Qltb b a then b else a.

(** [int(x)] on a float: truncation toward zero. *)
Definition int (x : Q) : Z := Z.quot (Qnum x) (Zpos (Qden x)).

(** [s.split('\n')] *)
Definition newline : N := 10%N.

Fixpoint split_lines_acc (cur : pystr) (s : pystr) : list pystr :=
  match s with
  | [] => [rev cur]
  | c :: r =>
      if N.eqb c newline then rev cur :: split_lines_acc [] r
      else split_lines_acc (c :: cur) r
  end.

Definition split_lines (s : pystr) : list pystr := split_lines_acc [] s.

Definition str_eqb (a b : pystr) : bool :=
  if list_eq_dec N.eq_dec a b then true else false.

(** Results of calls that may raise. *)
Inductive exn := OSError | ZeroDivisionError | ValueError.

Inductive result (A : Type) :=
| Ok (a : A)
| Raise (e : exn).
Arguments Ok {A} a.
Arguments Raise {A} e.

(** [a / b] on ints (true division). *)
Definition truediv (a b : Z) : result Q :=
  if b =? 0 then Raise ZeroDivisionError
  else Ok (inject_Z a / inject_Z b)%Q.

Definition rbind {A B} (m : result A) (k : A -> result B) : result B :=
  match m with
  | Ok a => k a
  | Raise e => Raise e
  end.

(** [for x in xs: body], threading the loop-carried variables. *)
Fixpoint for_each {A S} (xs : list A) (body : A -> S -> result S) (s : S)
  : result S :=
  match xs with
  | [] => Ok s
  | x :: r => rbind (body x s) (for_each r body)
  end.

End Py.

Import Py.

(** ** The part of Pillow the script uses *)

Module Pillow.

Definition color := (Z * Z * Z)%type.
Definition box := (Z * Z * Z * Z)%type.

Inductive Font :=
| FreeTypeFont (path : pystr) (size : Z)
| DefaultFont.

(** The calls made on an [ImageDraw.Draw] object. *)
Inductive DrawOp :=
| RoundedRectangle (xy : box) (radius : Z) (fill : color)
                   (outline : option color) (width : Z)
| Rectangle (xy : box) (fill : color)
| Text (xy : Z * Z) (text : pystr) (font : Font) (fill : color).

(** An RGB image: a fresh canvas with the operations drawn on it, or
    [Image.blend(im1, im2, alpha)]. *)
Inductive Image :=
| Canvas (bg : color) (ops : list DrawOp)
| Blend (im1 im2 : Image) (alpha : Q).

(** [Image.new('RGB', (WIDTH, HEIGHT), bg)] *)
Definition new (bg : color) : Image := Canvas bg [].

(** [img.copy()]: images are values here. *)
Definition copy (img : Image) : Image := img.

(** What lies outside the script. *)
Record Env := {
  path_exists : pystr -> bool;          (* os.path.exists *)
  loadable : pystr -> Z -> bool;        (* ImageFont.truetype succeeds *)
  textbbox : pystr -> Font -> box;      (* draw.textbbox((0, 0), text, font) *)
  paint : DrawOp -> Z * Z -> color -> color (* a drawing call on one pixel *)
}.

(** [ImageFont.truetype(font_name, size)] *)
Definition truetype (env : Env) (font_name : pystr) (size : Z)
  : result Font :=
  if loadable env font_name size then Ok (FreeTypeFont font_name size)
  else Raise OSError.

(** [ImageFont.load_default()]: the font built into Pillow. *)
Definition load_default : result Font := Ok DefaultFont.

(** One channel of [Image.blend]: [im1 * (1 - alpha) + im2 * alpha],
    stored as an 8-bit integer. The value is computed exactly here; Pillow
    computes it in single precision, which can differ by one in a channel
    value. It is evaluated below at the factor 0, where both give the
    channel of [im1], and at 29/30 for colours that differ from the
    background by more than one in some channel. *)
Definition blend_channel (a b : Z) (alpha : Q) : Z :=
  int (inject_Z a + alpha * (inject_Z b - inject_Z a))%Q.

Definition blend_color (c1 c2 : color) (alpha : Q) : color :=
  let '(r1, g1, b1) := c1 in
  let '(r2, g2, b2) := c2 in
  (blend_channel r1 r2 alpha, blend_channel g1 g2 alpha,
   blend_channel b1 b2 alpha).

(** The colour of a pixel of an image: the drawing calls repaint the
    canvas colour one after the other. *)
Fixpoint pixel (env : Env) (img : Image) (xy : Z * Z) : color :=
  match img with
  | Canvas bg ops => fold_left (fun c op => paint env op xy c) ops bg
  | Blend im1 im2 alpha =>
      blend_color (pixel env im1 xy) (pixel env im2 xy) alpha
  end.

(** Drawing: a state and error monad over the operations drawn so far. *)
Definition Draw (A : Type) := list DrawOp -> result (A * list DrawOp).

Definition ret {A} (a : A) : Draw A := fun ops => Ok (a, ops).

Definition bind {A B} (m : Draw A) (k : A -> Draw B) : Draw B :=
  fun ops =>
    match m ops with
    | Ok (a, ops') => k a ops'
    | Raise e => Raise e
    end.

Definition lift {A} (r : result A) : Draw A :=
  fun ops =>
    match r with
    | Ok a => Ok (a, ops)
    | Raise e => Raise e
    end.

Definition emit (op : DrawOp) : Draw unit :=
  fun ops => Ok (tt, ops ++ [op]).

(** [if c: body] *)
Definition when (c : bool) (body : Draw unit) : Draw unit :=
  if c then body else ret tt.

(** [for x in xs: body], threading the loop-carried variables. *)
Fixpoint draw_for {A S} (xs : list A) (body : A -> S -> Draw S) (s : S)
  : Draw S :=
  match xs with
  | [] => ret s
  | x :: r => bind (body x s) (draw_for r body)
  end.

(** [img = Image.new('RGB', ..., bg); draw = ImageDraw.Draw(img); body;
    return img] *)
Definition on_canvas (bg : color) (body : Draw unit) : result Image :=
  match body [] with
  | Ok (_, ops) => Ok (Canvas bg ops)
  | Raise e => Raise e
  end.

Definition rounded_rectangle (xy : box) (radius : Z) (fill : color)
    (outline : option color) (width : Z) : Draw unit :=
  emit (RoundedRectangle xy radius fill outline width).

Definition rectangle (xy : box) (fill : color) : Draw unit :=
  emit (Rectangle xy fill).

Definition text (xy : Z * Z) (s : pystr) (font : Font) (fill : color)
  : Draw unit :=
  emit (Text xy s font fill).

End Pillow.

Import Pillow.

Declare Scope draw_scope.
Delimit Scope draw_scope with draw.
Notation "x <- m ;; k" := (bind m (fun x => k))
  (at level 61, m at next level, right associativity) : draw_scope.
Notation "m ;; k" := (bind m (fun _ => k))
  (at level 61, right associativity) : draw_scope.
Notation "'let!' x := m 'in' k" := (rbind m (fun x => k))
  (at level 10, x pattern, m at level 100, k at level 200).

Local Open Scope draw_scope.

(** ** create_slides.py *)

Module CreateSlides.

(** Dimensions *)
Definition WIDTH := 1920.
Definition HEIGHT := 1080.

(** Brand colors *)
Definition INDIGO : color := (99, 102, 241).
Definition CYAN : color := (34, 211, 238).
Definition DARK_BG : color := (26, 26, 46).
Definition WHITE : color := (255, 255, 255).
Definition DARKER_BG : color := (15, 15, 30).

(** Text of the chat demo. *)
Definition user_msg : pystr := str "Can you build me a todo app?".

Definition check_mark : N := 10003%N.

Definition agent_response : pystr :=
  str "I've created your todo app! " ++ [127881%N] ++ [newline]
  ++ [newline]
  ++ str "It's now live and ready to use at:" ++ [newline]
  ++ str "onhyper.io/a/your-todo-app" ++ [newline]
  ++ [newline]
  ++ str "Features included:" ++ [newline]
  ++ check_mark :: str " Add, edit, delete todos" ++ [newline]
  ++ check_mark :: str " Mark as complete" ++ [newline]
  ++ check_mark :: str " Local storage persistence" ++ [newline]
  ++ check_mark :: str " Responsive design" ++ [newline]
  ++ [newline]
  ++ str "Your app is deployed and ready!".

(** The cursor shown while typing. *)
Definition caret_glyph : N := 9612%N.
Definition caret : pystr := [caret_glyph].

Definition todos : list (pystr * bool) :=
  [ (9744%N :: str " Build landing page", true);
    (9745%N :: str " Create API endpoints", true);
    (9744%N :: str " Add user auth", false);
    (9745%N :: str " Deploy to production", true) ].

Definition url_caption : pystr := 128279%N :: str " onhyper.io/a/your-todo-app".

(** Geometry of the chat demo (locals of [create_chat_demo_frame]). *)
Definition chat_left := 160.
Definition chat_top := 80.
Definition chat_width := 1600.
Definition chat_height := 920.
Definition user_bubble_left := chat_left + chat_width - 650.
Definition user_bubble_top := chat_top + 100.
Definition user_bubble_width := 600.
Definition user_bubble_height := 60.
Definition agent_bubble_left := chat_left + 50.
Definition agent_bubble_top := chat_top + 220.
Definition agent_bubble_width := 800.
Definition agent_bubble_height := 500.
Definition preview_left := chat_left + chat_width - 550.
Definition preview_top := chat_top + 200.
Definition preview_width := 500.
Definition preview_height := 600.

(** [alpha] of the user bubble. *)
Definition user_bubble_alpha (progress : Q) (phase : Z) : Q :=
  if phase =? 0 then min 1 (progress * 4) else 1.

(** [chars_to_show] of the typing effect. *)
Definition chars_to_show (progress : Q) : Z :=
  int (inject_Z (len agent_response) * min 1 (progress * (3 # 2))).

(** [visible_text] of the agent bubble. *)
Definition visible_text (progress : Q) (phase : Z) : pystr :=
  if phase =? 1 then
    let chars_to_show := chars_to_show progress in
    let visible_text := slice_to agent_response chars_to_show in
    (* Add cursor if still typing *)
    if chars_to_show <? len agent_response then visible_text ++ caret
    else visible_text
  else agent_response.

(** [opacity] of the preview list. *)
Definition preview_opacity (progress : Q) (phase : Z) : Q :=
  if phase =? 2 then min 1 (progress * 2) else 1.

(** The todo items drawn: [todos[:int(len(todos) * opacity)]]. *)
Definition visible_todos (progress : Q) (phase : Z) : list (pystr * bool) :=
  slice_to todos (int (inject_Z (len todos) * preview_opacity progress phase)).

Definition HELVETICA : pystr := str "/System/Library/Fonts/Helvetica.ttc".
Definition SFNS : pystr := str "/System/Library/Fonts/SFNSDisplay.ttf".
Definition ARIAL_BOLD : pystr := str "/Library/Fonts/Arial Bold.ttf".
Definition ARIAL : pystr := str "/Library/Fonts/Arial.ttf".

Definition font_names (bold : bool) : list pystr :=
  [ HELVETICA; SFNS; if bold then ARIAL_BOLD else ARIAL ].

Section Script.

Variable env : Env.

(** The [for] loop of [get_font]: [Some f] when an iteration returns
    [f], [None] when the loop runs to its end. *)
Fixpoint get_font_loop (names : list pystr) (size : Z) : option Font :=
  match names with
  | [] => None
  | font_name :: rest =>
      if path_exists env font_name then
        match truetype env font_name size with
        | Ok f => Some f                        (* return *)
        | Raise _ => get_font_loop rest size    (* except: pass *)
        end
      else get_font_loop rest size
  end.

(** Get a font, falling back to default if necessary. *)
Definition get_font (size : Z) (bold : bool) : result Font :=
  match get_font_loop (font_names bold) size with
  | Some f => Ok f
  | None => load_default
  end.

Definition bbox_width (b : box) : Z :=
  let '(x0, _, x1, _) := b in x1 - x0.

(** Create the intro slide image. *)
Definition create_intro_slide : result Image :=
  on_canvas DARK_BG (
    (* Title - OnHyper *)
    title_font <- lift (get_font 96 true) ;;
    let title := str "OnHyper" in
    let title_w := bbox_width (textbbox env title title_font) in
    text ((WIDTH - title_w) / 2, HEIGHT / 2 - 120) title title_font INDIGO ;;
    (* Tagline *)
    tagline_font <- lift (get_font 42 false) ;;
    let tagline := str "Where Agents Ship Code" in
    let tagline_w := bbox_width (textbbox env tagline tagline_font) in
    text ((WIDTH - tagline_w) / 2, HEIGHT / 2 + 20) tagline tagline_font
      WHITE ;;
    (* URL *)
    url_font <- lift (get_font 36 false) ;;
    let url := str "onhyper.io" in
    let url_w := bbox_width (textbbox env url url_font) in
    text ((WIDTH - url_w) / 2, HEIGHT / 2 + 100) url url_font CYAN).

(** Create the outro slide image. *)
Definition create_outro_slide : result Image :=
  on_canvas DARK_BG (
    (* Main CTA *)
    cta_font <- lift (get_font 72 true) ;;
    let cta := str "Start Building Today" in
    let cta_w := bbox_width (textbbox env cta cta_font) in
    text ((WIDTH - cta_w) / 2, HEIGHT / 2 - 150) cta cta_font WHITE ;;
    (* Free tier info *)
    free_font <- lift (get_font 36 false) ;;
    let free_text := str "Free Tier: 100 requests/day, 3 apps" in
    let free_w := bbox_width (textbbox env free_text free_font) in
    text ((WIDTH - free_w) / 2, HEIGHT / 2 - 20) free_text free_font CYAN ;;
    (* URL *)
    url_font <- lift (get_font 56 true) ;;
    let url := str "onhyper.io" in
    let url_w := bbox_width (textbbox env url url_font) in
    text ((WIDTH - url_w) / 2, HEIGHT / 2 + 80) url url_font INDIGO).

(** Create a chat demo frame at given progress (0.0 to 1.0). *)
Definition create_chat_demo_frame (progress : Q) (phase : Z)
  : result Image :=
  on_canvas DARKER_BG (
    (* Draw chat window background *)
    rounded_rectangle
      (chat_left, chat_top, chat_left + chat_width, chat_top + chat_height)
      20 DARK_BG (Some (50, 50, 80)) 2 ;;
    (* Chat header *)
    rectangle (chat_left, chat_top, chat_left + chat_width, chat_top + 60)
      (40, 40, 70) ;;
    header_font <- lift (get_font 28 true) ;;
    text (chat_left + 30, chat_top + 15) (str "OnHyper Agent Chat")
      header_font WHITE ;;
    status_font <- lift (get_font 20 false) ;;
    text (chat_left + chat_width - 180, chat_top + 20)
      (9679%N :: str " Online") status_font CYAN ;;
    (* User message bubble (always visible after phase 0) *)
    user_font <- lift (get_font 26 false) ;;
    when (phase >=? 0) (
      let alpha := user_bubble_alpha progress phase in
      (* Simplified - just draw the bubble *)
      rounded_rectangle
        (user_bubble_left, user_bubble_top,
         user_bubble_left + user_bubble_width,
         user_bubble_top + user_bubble_height)
        15 (60, 60, 100) None 1 ;;
      text (user_bubble_left + 20, user_bubble_top + 15) user_msg
        user_font WHITE ;;
      (* User label *)
      label_font <- lift (get_font 18 false) ;;
      text (user_bubble_left + 20, user_bubble_top - 22) (str "You")
        label_font (150, 150, 180)) ;;
    (* Agent response area *)
    when (phase >=? 1) (
      (* Agent bubble *)
      rounded_rectangle
        (agent_bubble_left, agent_bubble_top,
         agent_bubble_left + agent_bubble_width,
         agent_bubble_top + agent_bubble_height)
        15 (35, 35, 60) None 1 ;;
      (* Agent label *)
      label_font <- lift (get_font 18 false) ;;
      text (agent_bubble_left + 20, agent_bubble_top - 22)
        (129302%N :: str " OnHyper Agent") label_font CYAN ;;
      (* Agent response text with typing effect *)
      let visible_text := visible_text progress phase in
      (* Draw agent text *)
      text_font <- lift (get_font 24 false) ;;
      let lines := split_lines visible_text in
      let y_offset := agent_bubble_top + 30 in
      _ <- draw_for lines (fun line y_offset =>
             text (agent_bubble_left + 30, y_offset) line text_font WHITE ;;
             ret (y_offset + 36)) y_offset ;;
      ret tt) ;;
    (* App preview section (phase 2) *)
    when (phase >=? 2) (
      (* App preview window *)
      rounded_rectangle
        (preview_left, preview_top, preview_left + preview_width,
         preview_top + preview_height)
        15 (25, 25, 50) (Some CYAN) 2 ;;
      (* App header *)
      rectangle
        (preview_left, preview_top, preview_left + preview_width,
         preview_top + 50)
        INDIGO ;;
      app_title_font <- lift (get_font 22 true) ;;
      text (preview_left + 20, preview_top + 12)
        (128221%N :: str " Your Todo App") app_title_font WHITE ;;
      (* App content - todo items *)
      todo_font <- lift (get_font 20 false) ;;
      let y_offset := preview_top + 70 in
      _ <- draw_for (visible_todos progress phase)
             (fun '(todo, done) y_offset =>
                let color := if done then CYAN else WHITE in
                text (preview_left + 30, y_offset) todo todo_font color ;;
                ret (y_offset + 50)) y_offset ;;
      (* URL display *)
      when ((phase =? 2) && Qltb (1 # 2) progress) (
        url_font <- lift (get_font 18 false) ;;
        text (preview_left + 30, preview_top + preview_height - 50)
          url_caption url_font CYAN))).

(** A frame written by the chat loop: [frame_{cf_index:04d}.png] holds
    the image returned by [create_chat_demo_frame(cf_progress, cf_phase)]. *)
Record ChatFrame := {
  cf_index : Z;
  cf_phase : Z;
  cf_progress : Q;
  cf_image : Image
}.

(** The files written, per directory; a slide frame [(i, image)] is
    [frame_{i:04d}.png]. *)
Record Output := {
  intro : list (Z * Image);
  chat : list ChatFrame;
  outro : list (Z * Image)
}.

(** Body of the intro loop: the frame saved at index [i]. *)
Definition intro_frame (intro_img : Image) (i : Z) : result Image :=
  (* Apply fade effect *)
  let frame := copy intro_img in
  if i <? 30 then (* Fade in *)
    let! alpha := truediv i 30 in
    Ok (Blend (new DARK_BG) frame alpha)
  else if i >? 120 then (* Fade out *)
    let! alpha := truediv (i - 120) 30 in
    Ok (Blend frame (new DARK_BG) alpha)
  else Ok frame.

(** Body of the outro loop. *)
Definition outro_frame (outro_img : Image) (i : Z) : result Image :=
  let frame := copy outro_img in
  if i <? 30 then (* Fade in *)
    let! alpha := truediv i 30 in
    Ok (Blend (new DARK_BG) frame alpha)
  else if i >? 150 then (* Fade out *)
    let! alpha := truediv (i - 150) 30 in
    Ok (Blend frame (new DARK_BG) alpha)
  else Ok frame.

(** Create intro frame sequence (5 seconds at 30fps = 150 frames) *)
Definition intro_loop : result (list (Z * Image)) :=
  let! intro_img := create_intro_slide in
  for_each (range 150)
    (fun i saved =>
       let! frame := intro_frame intro_img i in
       Ok (saved ++ [(i, frame)]))
    [].

(** The nested loop over the phases and their frames; its state is
    [frame_idx] and the frames saved so far. *)
Definition chat_loop (phase_frames : list Z)
  : result (Z * list ChatFrame) :=
  for_each (enumerate phase_frames)
    (fun '(phase, frames) =>
       for_each (range frames)
         (fun i '(frame_idx, saved) =>
            let! progress := truediv i frames in
            let! frame := create_chat_demo_frame progress phase in
            Ok (frame_idx + 1,
                saved ++ [{| cf_index := frame_idx; cf_phase := phase;
                             cf_progress := progress;
                             cf_image := frame |}])))
    (0, []).

(** Create outro frame sequence (6 seconds at 30fps = 180 frames) *)
Definition outro_loop : result (list (Z * Image)) :=
  let! outro_img := create_outro_slide in
  for_each (range 180)
    (fun i saved =>
       let! frame := outro_frame outro_img i in
       Ok (saved ++ [(i, frame)]))
    [].

(** Generate all slide images and frame sequences. *)
Definition main : result Output :=
  let! intro_saved := intro_loop in
  (* Create chat demo frames (12 seconds at 30fps = 360 frames) *)
  let total_frames := 360 in
  let phase_frames := [90; 180; 90] in
  let! (frame_idx, chat_saved) := chat_loop phase_frames in
  let! outro_saved := outro_loop in
  Ok {| intro := intro_saved; chat := chat_saved; outro := outro_saved |}.

End Script.

End CreateSlides.

Import CreateSlides.

(** ** More Python primitives, for the icon generator *)

Module PyStrings.

(** A slice bound as Python clamps it: negative bounds count from the end. *)
Definition clamp_index (n k : Z) : Z :=
  if k <? 0 then Z.max (n + k) 0 else Z.min k n.

(** [xs[i:j]] *)
Definition slice {A} (xs : list A) (i j : Z) : list A :=
  let a := clamp_index (len xs) i in
  let b := clamp_index (len xs) j in
  firstn (Z.to_nat (b - a)) (skipn (Z.to_nat a) xs).

(** [str(n)] on an int, as an f-string formats it. *)
Definition str_of_int (n : Z) : pystr :=
  str (DecimalString.NilZero.string_of_int (Z.to_int n)).

Definition sep : N := 47%N.

Definition startswith_sep (s : pystr) : bool :=
  match s with
  | c :: _ => N.eqb c sep
  | [] => false
  end.

Definition endswith_sep (s : pystr) : bool :=
  match rev s with
  | c :: _ => N.eqb c sep
  | [] => false
  end.

(** [os.path.join(a, b)] (posixpath). *)
Definition path_join (a b : pystr) : pystr :=
  if startswith_sep b then b
  else if match a with [] => true | _ => endswith_sep a end then a ++ b
  else a ++ [sep] ++ b.

End PyStrings.

Import PyStrings.

(** ** generate_icons.py *)

Module GenerateIcons.

Definition rgba := (Z * Z * Z * Z)%type.

(** The calls made on the [ImageDraw.Draw] of an icon. *)
Inductive IconOp :=
| Ellipse (xy : box) (fill : rgba)
| IconRectangle (xy : box) (fill : rgba).

(** An RGBA image: its size, the colour of the fresh canvas and the shapes
    drawn on it, in drawing order. *)
Record Icon := {
  icon_size : Z * Z;
  icon_background : rgba;
  icon_ops : list IconOp
}.

(** What lies outside the script: the builtin [int(s, 16)], which accepts
    more than pairs of hex digits (blanks, a sign, underscores) and raises
    [ValueError] on the rest, and the directory of the script. *)
Record IconEnv := {
  int16 : pystr -> result Z;   (* int(s, 16) *)
  SCRIPT_DIR : pystr           (* os.path.dirname(os.path.abspath(__file__)) *)
}.

(** Sizes to generate *)
Definition SIZES : list Z := [16; 48; 128].

(** Color definitions (hex); a dict iterates in insertion order. *)
Definition COLORS : list (pystr * pystr) :=
  [ (str "green", str "#22c55e");
    (str "yellow", str "#eab308");
    (str "red", str "#ef4444");
    (str "gray", str "#6b7280") ].

(** [Image.new('RGBA', (size, size), ...)]: Pillow refuses a negative
    size. *)
Definition new_rgba (size : Z) : result unit :=
  if size <? 0 then Raise ValueError else Ok tt.

Definition box_of (op : IconOp) : box :=
  match op with
  | Ellipse xy _ => xy
  | IconRectangle xy _ => xy
  end.

(** [draw.ellipse(xy, ...)] and [draw.rectangle(xy, ...)]: Pillow refuses
    a box with [x1 < x0] or [y1 < y0]. *)
Definition check_box (xy : box) : result unit :=
  let '(x0, y0, x1, y1) := xy in
  if (x1 <? x0) || (y1 <? y0) then Raise ValueError else Ok tt.

(** The shapes of [create_icon], once the colour is parsed, on the canvas
    passed to [img.save(output_path)]. *)
Definition draw_icon (size r g b : Z) : Icon :=
  (* Calculate dimensions *)
  let padding := size / 8 in
  let circle_radius := (size - 2 * padding) / 2 in
  (* Draw main circle (filled) *)
  let center := size / 2 in
  (* Add a simple "H" like shape (for Hyper/H) inside *)
  let inner_size := circle_radius * 2 in
  let stroke := Z.max 1 (size / 16) in
  (* Vertical bars *)
  let bar_width := inner_size / 4 in
  let bar_height := inner_size - stroke * 2 in
  let left_x := center - inner_size / 3 in
  let right_x := center + inner_size / 3 in
  {| icon_size := (size, size);
     icon_background := (0, 0, 0, 0);
     icon_ops :=
       [ Ellipse
           (center - circle_radius, center - circle_radius,
            center + circle_radius, center + circle_radius)
           (r, g, b, 255);
         (* Left vertical *)
         IconRectangle
           (left_x - bar_width / 2, center - bar_height / 2,
            left_x + bar_width / 2, center + bar_height / 2)
           (255, 255, 255, 255);
         (* Right vertical *)
         IconRectangle
           (right_x - bar_width / 2, center - bar_height / 2,
            right_x + bar_width / 2, center + bar_height / 2)
           (255, 255, 255, 255);
         (* Horizontal bar *)
         IconRectangle
           (left_x - bar_width / 2, center - stroke / 2,
            right_x + bar_width / 2, center + stroke / 2)
           (255, 255, 255, 255) ] |}.

(** Create a simple circular icon with an inner design. *)
Definition create_icon (env : IconEnv) (size : Z) (color_hex : pystr)
  : result Icon :=
  (* Create transparent background *)
  let! _ := new_rgba size in
  (* Parse color *)
  let! r := int16 env (slice color_hex 1 3) in
  let! g := int16 env (slice color_hex 3 5) in
  let! b := int16 env (slice color_hex 5 7) in
  let icon := draw_icon size r g b in
  (* The drawing calls, in order; the first refused box raises *)
  let! _ := for_each (icon_ops icon) (fun op _ => check_box (box_of op)) tt in
  Ok icon.

(** The files written by [main]: each icon with its output path. *)
Definition main (env : IconEnv) : result (list (pystr * Icon)) :=
  for_each COLORS
    (fun '(color_name, color_hex) =>
       for_each SIZES
         (fun size saved =>
            let filename :=
              str "icon-" ++ color_name ++ str "-" ++ str_of_int size
              ++ str ".png" in
            let output_path := path_join (SCRIPT_DIR env) filename in
            let! icon := create_icon env size color_hex in
            Ok (saved ++ [(output_path, icon)])))
    [].

End GenerateIcons.

(** ** The progress arithmetic in binary64

    Python floats are IEEE binary64 numbers. This module writes the
    expressions of the script that read [progress] over primitive floats;
    they are compared with the rational model on the frames that [main]
    generates. *)

Module Binary64.

Import PrimFloat.

(** An int as a float (exact below 2^53). *)
Definition of_int (z : Z) : float := of_uint63 (Uint63.of_Z z).

(** [a / b] on ints. *)
Definition truediv (a b : Z) : float := (of_int a / of_int b)%float.

(** [min(a, b)] on floats. *)
Definition min (a b : float) : float := if (b <? a)%float then b else a.

(** [int(x)] on a float: truncation toward zero. *)
Definition int (x : float) : Z :=
  match FloatOps.Prim2SF x with
  | SpecFloat.S754_finite s m e =>
      let v := if 0 <=? e then Z.shiftl (Zpos m) e
               else Z.shiftr (Zpos m) (- e) in
      if s then - v else v
  | _ => 0
  end.

(** [int(x)] raises on an infinity and on a NaN: the floats it converts. *)
Definition converts (x : float) : bool :=
  match FloatOps.Prim2SF x with
  | SpecFloat.S754_zero _ | SpecFloat.S754_finite _ _ _ => true
  | _ => false
  end.

(** The floats that are not negative: a zero of either sign, a positive
    finite float, plus infinity, and NaN, which has no sign. *)
Definition not_negative (x : SpecFloat.spec_float) : Prop :=
  match x with
  | SpecFloat.S754_zero _ | SpecFloat.S754_nan => True
  | SpecFloat.S754_finite s _ _ | SpecFloat.S754_infinity s => s = false
  end.

(** The exact value of a finite float. *)
Definition to_Q (x : float) : Q :=
  match FloatOps.Prim2SF x with
  | SpecFloat.S754_finite s m e =>
      let v := if 0 <=? e then inject_Z (Zpos m * 2 ^ e)
               else Qmake (Zpos m) (Z.to_pos (2 ^ (- e))) in
      if s then Qopp v else v
  | _ => 0%Q
  end.

Definition user_bubble_alpha (progress : float) (phase : Z) : float :=
  if phase =? 0 then min 1%float (progress * 4)%float else 1%float.

Definition chars_to_show (progress : float) : Z :=
  int (of_int (len agent_response) * min 1 (progress * 1.5))%float.

Definition visible_text (progress : float) (phase : Z) : pystr :=
  if phase =? 1 then
    let chars_to_show := chars_to_show progress in
    let visible_text := slice_to agent_response chars_to_show in
    if chars_to_show <? len agent_response then visible_text ++ caret
    else visible_text
  else agent_response.

Definition preview_opacity (progress : float) (phase : Z) : float :=
  if phase =? 2 then min 1%float (progress * 2)%float else 1%float.

Definition visible_todos (progress : float) (phase : Z)
  : list (pystr * bool) :=
  slice_to todos
    (int (of_int (len todos) * preview_opacity progress phase)%float).

(** The gate of the URL display: [phase == 2 and progress > 0.5]. *)
Definition url_displayed (progress : float) (phase : Z) : bool :=
  (phase =? 2) && (0.5 <? progress)%float.

Section Script.

Variable env : Env.

(** [create_chat_demo_frame] on a binary64 progress. *)
Definition create_chat_demo_frame (progress : float) (phase : Z)
  : result Image :=
  on_canvas DARKER_BG (
    (* Draw chat window background *)
    rounded_rectangle
      (chat_left, chat_top, chat_left + chat_width, chat_top + chat_height)
      20 DARK_BG (Some (50, 50, 80)) 2 ;;
    (* Chat header *)
    rectangle (chat_left, chat_top, chat_left + chat_width, chat_top + 60)
      (40, 40, 70) ;;
    header_font <- lift (get_font env 28 true) ;;
    text (chat_left + 30, chat_top + 15) (str "OnHyper Agent Chat")
      header_font WHITE ;;
    status_font <- lift (get_font env 20 false) ;;
    text (chat_left + chat_width - 180, chat_top + 20)
      (9679%N :: str " Online") status_font CYAN ;;
    (* User message bubble (always visible after phase 0) *)
    user_font <- lift (get_font env 26 false) ;;
    when (phase >=? 0) (
      let alpha := user_bubble_alpha progress phase in
      (* Simplified - just draw the bubble *)
      rounded_rectangle
        (user_bubble_left, user_bubble_top,
         user_bubble_left + user_bubble_width,
         user_bubble_top + user_bubble_height)
        15 (60, 60, 100) None 1 ;;
      text (user_bubble_left + 20, user_bubble_top + 15) user_msg
        user_font WHITE ;;
      (* User label *)
      label_font <- lift (get_font env 18 false) ;;
      text (user_bubble_left + 20, user_bubble_top - 22) (str "You")
        label_font (150, 150, 180)) ;;
    (* Agent response area *)
    when (phase >=? 1) (
      (* Agent bubble *)
      rounded_rectangle
        (agent_bubble_left, agent_bubble_top,
         agent_bubble_left + agent_bubble_width,
         agent_bubble_top + agent_bubble_height)
        15 (35, 35, 60) None 1 ;;
      (* Agent label *)
      label_font <- lift (get_font env 18 false) ;;
      text (agent_bubble_left + 20, agent_bubble_top - 22)
        (129302%N :: str " OnHyper Agent") label_font CYAN ;;
      (* Agent response text with typing effect *)
      let visible_text := visible_text progress phase in
      (* Draw agent text *)
      text_font <- lift (get_font env 24 false) ;;
      let lines := split_lines visible_text in
      let y_offset := agent_bubble_top + 30 in
      _ <- draw_for lines (fun line y_offset =>
             text (agent_bubble_left + 30, y_offset) line text_font WHITE ;;
             ret (y_offset + 36)) y_offset ;;
      ret tt) ;;
    (* App preview section (phase 2) *)
    when (phase >=? 2) (
      (* App preview window *)
      rounded_rectangle
        (preview_left, preview_top, preview_left + preview_width,
         preview_top + preview_height)
        15 (25, 25, 50) (Some CYAN) 2 ;;
      (* App header *)
      rectangle
        (preview_left, preview_top, preview_left + preview_width,
         preview_top + 50)
        INDIGO ;;
      app_title_font <- lift (get_font env 22 true) ;;
      text (preview_left + 20, preview_top + 12)
        (128221%N :: str " Your Todo App") app_title_font WHITE ;;
      (* App content - todo items *)
      todo_font <- lift (get_font env 20 false) ;;
      let y_offset := preview_top + 70 in
      _ <- draw_for (visible_todos progress phase)
             (fun '(todo, done) y_offset =>
                let color := if done then CYAN else WHITE in
                text (preview_left + 30, y_offset) todo todo_font color ;;
                ret (y_offset + 50)) y_offset ;;
      (* URL display *)
      when (url_displayed progress phase) (
        url_font <- lift (get_font env 18 false) ;;
        text (preview_left + 30, preview_top + preview_height - 50)
          url_caption url_font CYAN))).

End Script.

(** Step [i] of a phase of [frames] frames draws the same text, the same
    todo items and the same caption in binary64 as in the rational model. *)
Definition same_frame (phase frames i : Z) : bool :=
  let progress := truediv i frames in
  let exact := (inject_Z i / inject_Z frames)%Q in
  str_eqb (visible_text progress phase)
    (CreateSlides.visible_text exact phase)
  && (len (visible_todos progress phase)
      =? len (CreateSlides.visible_todos exact phase))
  && Bool.eqb (url_displayed progress phase)
       ((phase =? 2) && Qltb (1 # 2) exact).

End Binary64.

(** ** The contracts of the interface description *)

Module Contract.

(** Font resolution as the interface describes it: the first path of the
    ordered list that exists and loads, else the built-in default. *)
Definition resolve_font (env : Env) (size : Z) (bold : bool) : Font :=
  match find (fun p => path_exists env p && loadable env p size)
             (font_names bold) with
  | Some p => FreeTypeFont p size
  | None => DefaultFont
  end.

(** The fade envelope as its contract states it: before [fade_in_len] the
    background is blended toward the frame, after [total_len -
    fade_out_len] the frame is blended toward the background, and in
    between the frame passes through unchanged. *)
Definition fade_contract (frame_image background : Image)
    (frame_index fade_in_len fade_out_len total_len : Z) : Image :=
  if frame_index <? fade_in_len then
    Blend background frame_image
      (inject_Z frame_index / inject_Z fade_in_len)
  else if frame_index >? total_len - fade_out_len then
    Blend frame_image background
      (inject_Z (frame_index - (total_len - fade_out_len))
       / inject_Z fade_out_len)
  else frame_image.

End Contract.

Import Contract.

(** ** The chat-demo frame as a display list

    What [create_chat_demo_frame] draws, layer by layer and in drawing
    order, as a function of [(phase, progress)]. *)

Module Layers.

Section Layers.

Variable env : Env.

Definition chrome : list DrawOp :=
  [ RoundedRectangle
      (chat_left, chat_top, chat_left + chat_width, chat_top + chat_height)
      20 DARK_BG (Some (50, 50, 80)) 2;
    Rectangle (chat_left, chat_top, chat_left + chat_width, chat_top + 60)
      (40, 40, 70);
    Text (chat_left + 30, chat_top + 15) (str "OnHyper Agent Chat")
      (resolve_font env 28 true) WHITE;
    Text (chat_left + chat_width - 180, chat_top + 20)
      (9679%N :: str " Online") (resolve_font env 20 false) CYAN ].

Definition user_bubble_rectangle : DrawOp :=
  RoundedRectangle
    (user_bubble_left, user_bubble_top,
     user_bubble_left + user_bubble_width,
     user_bubble_top + user_bubble_height)
    15 (60, 60, 100) None 1.

Definition user_bubble (phase : Z) : list DrawOp :=
  if phase >=? 0 then
    [ user_bubble_rectangle;
      Text (user_bubble_left + 20, user_bubble_top + 15) user_msg
        (resolve_font env 26 false) WHITE;
      Text (user_bubble_left + 20, user_bubble_top - 22) (str "You")
        (resolve_font env 18 false) (150, 150, 180) ]
  else [].

Fixpoint text_lines (lines : list pystr) (y_offset : Z) : list DrawOp :=
  match lines with
  | [] => []
  | line :: rest =>
      Text (agent_bubble_left + 30, y_offset) line
        (resolve_font env 24 false) WHITE
      :: text_lines rest (y_offset + 36)
  end.

Definition agent_bubble (progress : Q) (phase : Z) : list DrawOp :=
  if phase >=? 1 then
    [ RoundedRectangle
        (agent_bubble_left, agent_bubble_top,
         agent_bubble_left + agent_bubble_width,
         agent_bubble_top + agent_bubble_height)
        15 (35, 35, 60) None 1;
      Text (agent_bubble_left + 20, agent_bubble_top - 22)
        (129302%N :: str " OnHyper Agent") (resolve_font env 18 false)
        CYAN ]
    ++ text_lines (split_lines (visible_text progress phase))
         (agent_bubble_top + 30)
  else [].

Fixpoint todo_items (items : list (pystr * bool)) (y_offset : Z)
  : list DrawOp :=
  match items with
  | [] => []
  | (todo, done) :: rest =>
      Text (preview_left + 30, y_offset) todo (resolve_font env 20 false)
        (if done then CYAN else WHITE)
      :: todo_items rest (y_offset + 50)
  end.

Definition url_display (progress : Q) (phase : Z) : list DrawOp :=
  if (phase =? 2) && Qltb (1 # 2) progress then
    [ Text (preview_left + 30, preview_top + preview_height - 50)
        url_caption (resolve_font env 18 false) CYAN ]
  else [].

Definition preview (progress : Q) (phase : Z) : list DrawOp :=
  if phase >=? 2 then
    [ RoundedRectangle
        (preview_left, preview_top, preview_left + preview_width,
         preview_top + preview_height)
        15 (25, 25, 50) (Some CYAN) 2;
      Rectangle
        (preview_left, preview_top, preview_left + preview_width,
         preview_top + 50)
        INDIGO;
      Text (preview_left + 20, preview_top + 12)
        (128221%N :: str " Your Todo App") (resolve_font env 22 true)
        WHITE ]
    ++ todo_items (visible_todos progress phase) (preview_top + 70)
    ++ url_display progress phase
  else [].

Definition display_list (progress : Q) (phase : Z) : list DrawOp :=
  chrome ++ user_bubble phase ++ agent_bubble progress phase
  ++ preview progress phase.

(** The display list of a frame of which the parts that depend on the
    progress are given: the text of the agent bubble, the todo items and
    whether the URL caption is shown. *)
Definition layers (phase : Z) (visible_text : pystr)
    (visible_todos : list (pystr * bool)) (url : bool) : list DrawOp :=
  chrome ++ user_bubble phase
  ++ (if phase >=? 1 then
        [ RoundedRectangle
            (agent_bubble_left, agent_bubble_top,
             agent_bubble_left + agent_bubble_width,
             agent_bubble_top + agent_bubble_height)
            15 (35, 35, 60) None 1;
          Text (agent_bubble_left + 20, agent_bubble_top - 22)
            (129302%N :: str " OnHyper Agent") (resolve_font env 18 false)
            CYAN ]
        ++ text_lines (split_lines visible_text) (agent_bubble_top + 30)
      else [])
  ++ (if phase >=? 2 then
        [ RoundedRectangle
            (preview_left, preview_top, preview_left + preview_width,
             preview_top + preview_height)
            15 (25, 25, 50) (Some CYAN) 2;
          Rectangle
            (preview_left, preview_top, preview_left + preview_width,
             preview_top + 50)
            INDIGO;
          Text (preview_left + 20, preview_top + 12)
            (128221%N :: str " Your Todo App") (resolve_font env 22 true)
            WHITE ]
        ++ todo_items visible_todos (preview_top + 70)
        ++ (if url then
              [ Text (preview_left + 30, preview_top + preview_height - 50)
                  url_caption (resolve_font env 18 false) CYAN ]
            else [])
      else []).

End Layers.

End Layers.

Import Layers.

(** ** The frames of the chat timeline *)

Module Schedule.

(** The frame of phase [phase] (of [frames] frames, the first of which has
    index [start]) at step [i]. *)
Definition chat_frame (env : Env) (start phase frames i : Z) : ChatFrame :=
  {| cf_index := start + i;
     cf_phase := phase;
     cf_progress := inject_Z i / inject_Z frames;
     cf_image :=
       Canvas DARKER_BG
         (display_list env (inject_Z i / inject_Z frames) phase) |}.

(** The frames of the phases [phase_frames], numbered from [phase], the
    first frame having index [start]. *)
Fixpoint timeline (env : Env) (phase start : Z) (phase_frames : list Z)
  : list ChatFrame :=
  match phase_frames with
  | [] => []
  | frames :: rest =>
      List.map (chat_frame env start phase frames) (range frames)
      ++ timeline env (phase + 1) (start + frames) rest
  end.

End Schedule.

Import Schedule.

(** ** What a frame shows *)

Module Observe.

(** The operations drawn on a canvas. *)
Definition drawn (img : Image) : list DrawOp :=
  match img with
  | Canvas _ ops => ops
  | Blend _ _ _ => []
  end.

Definition is_text (s : pystr) (op : DrawOp) : bool :=
  match op with
  | Text _ t _ _ => str_eqb t s
  | _ => false
  end.

(** Is the string [s] drawn on the image? *)
Definition draws_text (s : pystr) (img : Image) : bool :=
  existsb (is_text s) (drawn img).

(** The strings drawn at abscissa [x], in drawing order. *)
Definition texts_at (x : Z) (ops : list DrawOp) : list pystr :=
  flat_map (fun op =>
              match op with
              | Text (x', _) t _ _ => if x' =? x then [t] else []
              | _ => []
              end) ops.

(** The lines of the agent response drawn on the image. *)
Definition agent_text_drawn (img : Image) : list pystr :=
  texts_at (agent_bubble_left + 30) (drawn img).

Definition is_todo_label (t : pystr) : bool :=
  existsb (fun item => str_eqb t (fst item)) todos.

(** The todo items among the operations, each with its colour. *)
Definition todo_items_of (ops : list DrawOp) : list (pystr * color) :=
  flat_map (fun op =>
              match op with
              | Text _ t _ fill => if is_todo_label t then [(t, fill)] else []
              | _ => []
              end) ops.

(** The todo items drawn on the image. *)
Definition todo_items_drawn (img : Image) : list (pystr * color) :=
  todo_items_of (drawn img).

End Observe.

Import Observe.

(** ** Further readings of a frame *)

Module Layout.

(** The label above the agent bubble and the title of the preview panel. *)
Definition agent_label : pystr := 129302%N :: str " OnHyper Agent".
Definition preview_title : pystr := 128221%N :: str " Your Todo App".
Definition chat_title : pystr := str "OnHyper Agent Chat".

(** The ordinates of the strings drawn at abscissa [x], in drawing order. *)
Definition text_ys (x : Z) (ops : list DrawOp) : list Z :=
  flat_map (fun op =>
              match op with
              | Text (x', y) _ _ _ => if x' =? x then [y] else []
              | _ => []
              end) ops.

(** The box Pillow measures for a text drawn at its anchor: the box of
    [textbbox((0, 0), ...)] moved to the anchor, so its left edge lies
    [bbox[0]] pixels to the right of the anchor. *)
Definition measured_box (env : Env) (op : DrawOp) : box :=
  match op with
  | Text (x, y) s font _ =>
      let '(x0, y0, x1, y1) := textbbox env s font in
      (x + x0, y + y0, x + x1, y + y1)
  | RoundedRectangle xy _ _ _ _ => xy
  | Rectangle xy _ => xy
  end.

(** The left margin of the measured box minus its right margin: how far
    the box sits to the right of the centre of the canvas, doubled. *)
Definition off_centre (env : Env) (op : DrawOp) : Z :=
  let '(x0, _, x1, _) := measured_box env op in
  x0 - (WIDTH - x1).

(** A text is centred on the canvas when the left and right margins of its
    measured box differ by at most one pixel. *)
Definition horizontally_centered (env : Env) (op : DrawOp) : bool :=
  match op with
  | Text _ _ _ _ =>
      (-1 <=? off_centre env op) && (off_centre env op <=? 1)
  | _ => false
  end.

Definition text_of (op : DrawOp) : pystr :=
  match op with
  | Text _ s _ _ => s
  | _ => []
  end.

Definition is_blend (img : Image) : bool :=
  match img with
  | Blend _ _ _ => true
  | Canvas _ _ => false
  end.

(** The factor of a blended frame. *)
Definition blend_factor (img : Image) : option Q :=
  match img with
  | Blend _ _ alpha => Some alpha
  | Canvas _ _ => None
  end.

(** A box whose corners are in order. *)
Definition well_formed (b : box) : bool :=
  let '(x0, y0, x1, y1) := b in (x0 <=? x1) && (y0 <=? y1).

(** [inner] lies within [outer]. *)
Definition inside (inner outer : box) : bool :=
  let '(x0, y0, x1, y1) := inner in
  let '(X0, Y0, X1, Y1) := outer in
  (X0 <=? x0) && (Y0 <=? y0) && (x1 <=? X1) && (y1 <=? Y1).

End Layout.

Import Layout.

(** ** Example machines *)

Module Examples.

(** A machine with none of the platform fonts: every text is set in the
    built-in font; a text of [n] characters measures [10 * n] pixels; text
    paints the pixel at its anchor. *)
Definition no_fonts : Env := {|
  path_exists := fun _ => false;
  loadable := fun _ _ => false;
  textbbox := fun s _ => (0, 0, 10 * len s, 10);
  paint := fun op xy c =>
    match op with
    | Text (x, y) _ _ fill =>
        if (x =? fst xy) && (y =? snd xy) then fill else c
    | _ => c
    end
|}.

(** A machine where every font file exists but Helvetica fails to load. *)
Definition broken_helvetica : Env := {|
  path_exists := fun _ => true;
  loadable := fun p _ => negb (str_eqb p HELVETICA);
  textbbox := fun s _ => (0, 0, 10 * len s, 10);
  paint := fun _ _ c => c
|}.

(** A machine whose fonts start every text three pixels right of its
    anchor, as fonts with a left side bearing do. *)
Definition offset_fonts : Env := {|
  path_exists := fun _ => false;
  loadable := fun _ _ => false;
  textbbox := fun s _ => (3, 0, 3 + 10 * len s, 10);
  paint := fun _ _ c => c
|}.

(** [int(s, 16)] on strings of ASCII hex digits; anything else raises. *)
Definition hex_digit (c : N) : option Z :=
  if ((48 <=? c) && (c <=? 57))%N then Some (Z.of_N c - 48)
  else if ((97 <=? c) && (c <=? 102))%N then Some (Z.of_N c - 87)
  else if ((65 <=? c) && (c <=? 70))%N then Some (Z.of_N c - 55)
  else None.

Fixpoint hex_value (acc : Z) (s : pystr) : option Z :=
  match s with
  | [] => Some acc
  | c :: r =>
      match hex_digit c with
      | Some d => hex_value (16 * acc + d) r
      | None => None
      end
  end.

(** A machine whose script lives in [/ext/icons]. *)
Definition icon_machine : GenerateIcons.IconEnv := {|
  GenerateIcons.int16 := fun s =>
    match s, hex_value 0 s with
    | _ :: _, Some v => Ok v
    | _, _ => Raise ValueError
    end;
  GenerateIcons.SCRIPT_DIR := str "/ext/icons"
|}.

End Examples.

Import Examples.

(** * Properties *)

(** ** Facts about the Python primitives *)

Module PyFacts.

Lemma Qltb_lt (x y : Q) : Qltb x y = true <-> (x < y)%Q.
Proof.
  unfold Qltb. rewrite negb_true_iff. split; intro H.
  - apply Qnot_le_lt. intro Hle. apply Qle_bool_iff in Hle. congruence.
  - destruct (Qle_bool y x) eqn:E; [|reflexivity].
    apply Qle_bool_iff in E. exfalso. exact (Qlt_not_le _ _ H E).
Qed.

Lemma Qltb_ge (x y : Q) : Qltb x y = false <-> (y <= x)%Q.
Proof.
  unfold Qltb. rewrite negb_false_iff. apply Qle_bool_iff.
Qed.

(** Python's [min] is the minimum. *)
Lemma min_Qmin (a b : Q) : (min a b == Qmin a b)%Q.
Proof.
  unfold min. destruct (Qltb b a) eqn:E.
  - apply Qltb_lt in E. symmetry. apply Q.min_r. apply Qlt_le_weak, E.
  - apply Qltb_ge in E. symmetry. apply Q.min_l. exact E.
Qed.



Lemma min_nonneg (a b : Q) : (0 <= a)%Q -> (0 <= b)%Q -> (0 <= min a b)%Q.
Proof. intros Ha Hb. unfold min. destruct (Qltb b a); assumption. Qed.

Lemma min_saturated (a b : Q) : (a <= b)%Q -> min a b = a.
Proof.
  intro H. unfold min. destruct (Qltb b a) eqn:E; [|reflexivity].
  apply Qltb_lt in E. exfalso. exact (Qlt_not_le _ _ E H).
Qed.

(** [int] is the floor on non-negative floats and the ceiling on
    non-positive ones. *)
Lemma int_floor (x : Q) : (0 <= x)%Q -> int x = Qfloor x.
Proof.
  destruct x as [n d]. unfold Qle, int, Qfloor. cbn. intro H.
  apply Z.quot_div_nonneg; lia.
Qed.

Lemma int_ceiling (x : Q) : (x <= 0)%Q -> int x = Qceiling x.
Proof.
  destruct x as [n d]. unfold Qle, int, Qceiling, Qfloor. cbn. intro H.
  rewrite <- (Z.opp_involutive n) at 1. rewrite Z.quot_opp_l by lia.
  f_equal. apply Z.quot_div_nonneg; lia.
Qed.

Lemma int_mono (x y : Q) : (x <= y)%Q -> int x <= int y.
Proof.
  intro H.
  destruct (Qlt_le_dec x 0) as [Hx | Hx];
    destruct (Qlt_le_dec y 0) as [Hy | Hy].
  - rewrite !int_ceiling by (apply Qlt_le_weak; assumption).
    apply Qceiling_resp_le, H.
  - rewrite (int_ceiling x) by (apply Qlt_le_weak; assumption).
    rewrite (int_floor y) by assumption.
    assert (Qceiling x <= 0).
    { change 0 with (Qceiling 0). apply Qceiling_resp_le, Qlt_le_weak, Hx. }
    assert (0 <= Qfloor y).
    { change 0 with (Qfloor 0). apply Qfloor_resp_le, Hy. }
    lia.
  - exfalso. apply (Qlt_not_le _ _ Hy). apply Qle_trans with x; assumption.
  - rewrite !int_floor by assumption. apply Qfloor_resp_le, H.
Qed.

Lemma int_inject_Z (z : Z) : int (inject_Z z) = z.
Proof. unfold int. cbn. apply Z.quot_1_r. Qed.

Lemma int_proper (x y : Q) : (x == y)%Q -> int x = int y.
Proof.
  intro H. apply Z.le_antisymm; apply int_mono; rewrite H; apply Qle_refl.
Qed.

Lemma Ok_inj {A} (a b : A) : Ok a = Ok b -> a = b.
Proof. intro H. congruence. Qed.

Lemma len_nonneg {A} (xs : list A) : 0 <= len xs.
Proof. unfold len. lia. Qed.


Lemma slice_to_all {A} (xs : list A) (k : Z) :
  len xs <= k -> slice_to xs k = xs.
Proof.
  unfold slice_to, len. intro H.
  destruct (k <? 0) eqn:E; [apply Z.ltb_lt in E; lia|].
  apply firstn_all2. lia.
Qed.

Lemma str_eqb_eq (a b : pystr) : str_eqb a b = true <-> a = b.
Proof.
  unfold str_eqb. destruct (list_eq_dec N.eq_dec a b); split; congruence.
Qed.

End PyFacts.

Import PyFacts.

(** ** Font resolution *)

Module FontFacts.

Lemma get_font_loop_find (env : Env) (size : Z) (names : list pystr) :
  get_font_loop env names size
  = option_map (fun p => FreeTypeFont p size)
      (find (fun p => path_exists env p && loadable env p size) names).
Proof.
  induction names as [|p names IH]; cbn [get_font_loop find]; [reflexivity|].
  unfold truetype.
  destruct (path_exists env p); cbn [andb]; [|exact IH].
  destruct (loadable env p size); [reflexivity | exact IH].
Qed.

Lemma get_font_resolve (env : Env) (size : Z) (bold : bool) :
  get_font env size bold = Ok (resolve_font env size bold).
Proof.
  unfold get_font, resolve_font. rewrite get_font_loop_find.
  destruct (find _ (font_names bold)); reflexivity.
Qed.

End FontFacts.

Import FontFacts.

(** ** The display list is what the frame function draws *)

Module LayersFacts.

Section LayersFacts.

Variable env : Env.

Lemma draw_lines_run (font : Font) (lines : list pystr) :
  forall (y_offset : Z) (ops : list DrawOp),
  exists y',
    draw_for lines
      (fun line y_offset =>
         text (agent_bubble_left + 30, y_offset) line font WHITE ;;
         ret (y_offset + 36))
      y_offset ops
    = Ok (y', ops ++ (fix go (ls : list pystr) (y : Z) : list DrawOp :=
                        match ls with
                        | [] => []
                        | l :: r =>
                            Text (agent_bubble_left + 30, y) l font WHITE
                            :: go r (y + 36)
                        end) lines y_offset).
Proof.
  induction lines as [|line rest IH]; intros y_offset ops.
  - exists y_offset. cbn. now rewrite app_nil_r.
  - destruct (IH (y_offset + 36)
                (ops ++ [Text (agent_bubble_left + 30, y_offset) line
                           font WHITE])) as [y' Hy'].
    exists y'. cbn [draw_for]. unfold bind at 1.
    unfold text, emit, bind, ret. cbv beta iota.
    unfold text, emit, bind, ret in Hy'. rewrite Hy'.
    now rewrite <- app_assoc.
Qed.

Lemma draw_todos_run (font : Font) (items : list (pystr * bool)) :
  forall (y_offset : Z) (ops : list DrawOp),
  exists y',
    draw_for items
      (fun '(todo, done) y_offset =>
         let color := if done then CYAN else WHITE in
         text (preview_left + 30, y_offset) todo font color ;;
         ret (y_offset + 50))
      y_offset ops
    = Ok (y', ops ++ (fix go (ls : list (pystr * bool)) (y : Z)
                        : list DrawOp :=
                        match ls with
                        | [] => []
                        | (todo, done) :: r =>
                            Text (preview_left + 30, y) todo font
                              (if done then CYAN else WHITE)
                            :: go r (y + 50)
                        end) items y_offset).
Proof.
  induction items as [|[todo done] rest IH]; intros y_offset ops.
  - exists y_offset. cbn. now rewrite app_nil_r.
  - destruct (IH (y_offset + 50)
                (ops ++ [Text (preview_left + 30, y_offset) todo font
                           (if done then CYAN else WHITE)])) as [y' Hy'].
    exists y'. cbn [draw_for]. unfold bind at 1.
    unfold text, emit, bind, ret. cbv beta iota zeta.
    unfold text, emit, bind, ret in Hy'. cbv beta iota zeta in Hy'.
    rewrite Hy'. now rewrite <- app_assoc.
Qed.

(** [create_chat_demo_frame] returns the canvas with the display list
    drawn on it. *)
Lemma create_chat_demo_frame_draws (progress : Q) (phase : Z) :
  create_chat_demo_frame env progress phase
  = Ok (Canvas DARKER_BG (display_list env progress phase)).
Proof.
  unfold create_chat_demo_frame, on_canvas.
  rewrite !get_font_resolve.
  unfold display_list, chrome, user_bubble, agent_bubble, preview,
    url_display.
  cbv [bind emit lift rounded_rectangle rectangle text ret when].
  destruct (phase >=? 0); cbv beta iota;
    destruct (phase >=? 1); cbv beta iota.
  all: try match goal with
    | |- context [draw_for (split_lines ?v) ?body ?y ?ops] =>
        destruct (draw_lines_run (resolve_font env 24 false)
                    (split_lines v) y ops) as [y1 Hy1];
        cbv [bind emit text ret] in Hy1; rewrite Hy1; clear Hy1
    end.
  all: destruct (phase >=? 2); cbv beta iota.
  all: try match goal with
    | |- context [draw_for (visible_todos ?p ?ph) ?body ?y ?ops] =>
        destruct (draw_todos_run (resolve_font env 20 false)
                    (visible_todos p ph) y ops) as [y2 Hy2];
        cbv [bind emit text ret] in Hy2; cbv beta iota zeta in Hy2;
        rewrite Hy2; clear Hy2
    end.
  all: try destruct ((phase =? 2) && Qltb (1 # 2) progress).
  all: cbn [app]; rewrite ?app_nil_r, <- ?app_assoc; cbn [app];
    reflexivity.
Qed.

End LayersFacts.

End LayersFacts.

Import LayersFacts.

(** ** Facts about the observations *)

Module ObserveFacts.

Lemma texts_at_app (x : Z) (a b : list DrawOp) :
  texts_at x (a ++ b) = texts_at x a ++ texts_at x b.
Proof. apply flat_map_app. Qed.

Lemma todo_items_of_app (a b : list DrawOp) :
  todo_items_of (a ++ b) = todo_items_of a ++ todo_items_of b.
Proof. apply flat_map_app. Qed.

End ObserveFacts.

Import ObserveFacts.

Module FrameFacts.

Section FrameFacts.

Variable env : Env.

Lemma split_lines_acc_chars (s cur : pystr) (l : pystr) (c : N) :
  In l (split_lines_acc cur s) -> In c l -> In c cur \/ In c s.
Proof.
  revert cur. induction s as [|a s IH]; intros cur Hl Hc; cbn in Hl.
  - destruct Hl as [<- | []]. left. now apply in_rev.
  - destruct (N.eqb a newline).
    + destruct Hl as [<- | Hl].
      * left. now apply in_rev.
      * destruct (IH [] Hl Hc) as [[] | H]. right. now right.
    + destruct (IH (a :: cur) Hl Hc) as [[<- | H] | H].
      * right. now left.
      * now left.
      * right. now right.
Qed.

Lemma split_lines_chars (s l : pystr) (c : N) :
  In l (split_lines s) -> In c l -> In c s.
Proof.
  intros Hl Hc. destruct (split_lines_acc_chars s [] l c Hl Hc) as [[] | H].
  exact H.
Qed.

Lemma slice_to_incl {A} (xs : list A) (k : Z) (x : A) :
  In x (slice_to xs k) -> In x xs.
Proof.
  unfold slice_to.
  destruct (k <? 0); intro H;
    match type of H with
    | In _ (firstn ?n _) =>
        rewrite <- (firstn_skipn n xs); apply in_or_app; now left
    end.
Qed.

Lemma visible_text_chars (progress : Q) (phase : Z) (c : N) :
  In c (visible_text progress phase) ->
  In c agent_response \/ In c caret.
Proof.
  unfold visible_text. destruct (phase =? 1); [|now left].
  cbv zeta. destruct (_ <? _); intro H.
  - apply in_app_or in H. destruct H as [H | H]; [left | now right].
    eapply slice_to_incl, H.
  - left. eapply slice_to_incl, H.
Qed.

Lemma text_lines_In (lines : list pystr) (y : Z) (op : DrawOp) :
  In op (text_lines env lines y) ->
  exists line y', In line lines
    /\ op = Text (agent_bubble_left + 30, y') line
              (resolve_font env 24 false) WHITE.
Proof.
  revert y. induction lines as [|l lines IH]; intros y H; cbn in H.
  - destruct H.
  - destruct H as [<- | H].
    + exists l, y. split; [now left | reflexivity].
    + destruct (IH _ H) as (line & y' & Hin & ->).
      exists line, y'. split; [now right | reflexivity].
Qed.

Lemma todo_items_In (items : list (pystr * bool)) (y : Z) (op : DrawOp) :
  In op (todo_items env items y) ->
  exists todo done y', In (todo, done) items
    /\ op = Text (preview_left + 30, y') todo
              (resolve_font env 20 false) (if done then CYAN else WHITE).
Proof.
  revert y. induction items as [|[t d] items IH]; intros y H; cbn in H.
  - destruct H.
  - destruct H as [<- | H].
    + exists t, d, y. split; [now left | reflexivity].
    + destruct (IH _ H) as (todo & done & y' & Hin & ->).
      exists todo, done, y'. split; [now right | reflexivity].
Qed.

Lemma existsb_false {A} (f : A -> bool) (xs : list A) :
  (forall x, In x xs -> f x = false) -> existsb f xs = false.
Proof.
  intro H. destruct (existsb f xs) eqn:E; [|reflexivity].
  apply existsb_exists in E. destruct E as (x & Hin & Hx).
  rewrite (H x Hin) in Hx. discriminate.
Qed.

(** No line of the agent bubble is the URL caption: the caption starts
    with a link sign, which the response does not contain. *)
Lemma agent_bubble_no_caption (progress : Q) (phase : Z) :
  existsb (is_text url_caption) (agent_bubble env progress phase) = false.
Proof.
  unfold agent_bubble. destruct (phase >=? 1); [|reflexivity].
  rewrite existsb_app. apply orb_false_iff. split; [reflexivity|].
  apply existsb_false. intros op Hop.
  apply text_lines_In in Hop. destruct Hop as (line & y' & Hin & ->).
  cbn [is_text]. destruct (str_eqb line url_caption) eqn:E; [|reflexivity].
  apply str_eqb_eq in E. subst line. exfalso.
  assert (Hc : In 128279%N url_caption) by (now left).
  pose proof (split_lines_chars _ _ _ Hin Hc) as H.
  apply visible_text_chars in H.
  destruct H as [H | H]; revert H; clear.
  - vm_compute. intuition discriminate.
  - vm_compute. intuition discriminate.
Qed.

Lemma visible_todos_incl (progress : Q) (phase : Z) (item : pystr * bool) :
  In item (visible_todos progress phase) -> In item todos.
Proof. unfold visible_todos. apply slice_to_incl. Qed.

Lemma todo_items_no_caption (progress : Q) (phase : Z) (y : Z) :
  existsb (is_text url_caption)
    (todo_items env (visible_todos progress phase) y) = false.
Proof.
  apply existsb_false. intros op Hop.
  apply todo_items_In in Hop.
  destruct Hop as (todo & done & y' & Hin & ->).
  apply visible_todos_incl in Hin. cbn [is_text].
  revert Hin. clear. cbn [todos In].
  intros [H | [H | [H | [H | []]]]]; inversion H; subst; reflexivity.
Qed.

(** The URL caption is on the display list exactly behind its gate. *)
Lemma display_list_caption (progress : Q) (phase : Z) :
  existsb (is_text url_caption) (display_list env progress phase)
  = (phase =? 2) && Qltb (1 # 2) progress.
Proof.
  unfold display_list. rewrite !existsb_app.
  rewrite agent_bubble_no_caption.
  replace (existsb (is_text url_caption) (chrome env)) with false
    by reflexivity.
  replace (existsb (is_text url_caption) (user_bubble env phase))
    with false
    by (unfold user_bubble; destruct (phase >=? 0); reflexivity).
  cbn [orb]. unfold preview.
  destruct (phase >=? 2) eqn:E2.
  - rewrite !existsb_app, todo_items_no_caption.
    unfold url_display.
    destruct ((phase =? 2) && Qltb (1 # 2) progress); reflexivity.
  - cbn [existsb].
    destruct (phase =? 2) eqn:E; [|reflexivity].
    apply Z.eqb_eq in E. subst phase. discriminate.
Qed.

End FrameFacts.

End FrameFacts.

Import FrameFacts.

(** ** The phased frame compositor *)

Module Compositor.

Section Compositor.

Variable env : Env.

Lemma texts_at_text_lines (lines : list pystr) (y : Z) :
  texts_at (agent_bubble_left + 30) (text_lines env lines y) = lines.
Proof.
  revert y. induction lines as [|l lines IH]; intro y; [reflexivity|].
  cbn [text_lines texts_at flat_map]. rewrite Z.eqb_refl.
  cbn [app]. f_equal. apply IH.
Qed.

Lemma texts_at_todo_items (items : list (pystr * bool)) (y : Z) :
  texts_at (agent_bubble_left + 30) (todo_items env items y) = [].
Proof.
  revert y. induction items as [|[t d] items IH]; intro y; [reflexivity|].
  cbn [todo_items texts_at flat_map].
  replace (preview_left + 30 =? agent_bubble_left + 30) with false
    by reflexivity.
  cbn [app]. apply IH.
Qed.

(** The text lines of the agent bubble are the only strings drawn at its
    text abscissa. *)
Lemma agent_text_of_display_list (progress : Q) (phase : Z) :
  texts_at (agent_bubble_left + 30) (display_list env progress phase)
  = if phase >=? 1 then split_lines (visible_text progress phase) else [].
Proof.
  unfold display_list. rewrite !texts_at_app.
  replace (texts_at (agent_bubble_left + 30) (chrome env)) with (@nil pystr)
    by reflexivity.
  replace (texts_at (agent_bubble_left + 30) (user_bubble env phase))
    with (@nil pystr)
    by (unfold user_bubble; destruct (phase >=? 0); reflexivity).
  replace (texts_at (agent_bubble_left + 30) (preview env progress phase))
    with (@nil pystr).
  - cbn [app]. rewrite app_nil_r. unfold agent_bubble.
    destruct (phase >=? 1); [|reflexivity].
    rewrite texts_at_app, texts_at_text_lines. reflexivity.
  - unfold preview. destruct (phase >=? 2); [|reflexivity].
    rewrite !texts_at_app, texts_at_todo_items. unfold url_display.
    destruct ((phase =? 2) && Qltb (1 # 2) progress); reflexivity.
Qed.

End Compositor.





Lemma chars_to_show_saturated (progress : Q) :
  (2 # 3 <= progress)%Q -> chars_to_show progress = len agent_response.
Proof.
  intro H. unfold chars_to_show. rewrite min_saturated.
  - rewrite <- (int_inject_Z (len agent_response)) at 2.
    apply int_proper. apply Qmult_1_r.
  - apply Qle_trans with ((2 # 3) * (3 # 2))%Q; [now vm_compute|].
    apply Qmult_le_compat_r; [exact H | now vm_compute].
Qed.

End Compositor.

Import Compositor.

Module PhasedFrame.

(** C6. For every phase and progress, the URL caption is drawn if and only
    if [phase == 2] and [progress > 0.5]; it is a hard threshold: at
    progress exactly 0.5 the caption is hidden. *)
Theorem url_caption_gate (env : Env) (progress : Q) (phase : Z) :
  exists img,
    create_chat_demo_frame env progress phase = Ok img
    /\ (draws_text url_caption img = true
        <-> phase = 2 /\ (1 # 2 < progress)%Q)
    /\ ((progress == 1 # 2)%Q -> draws_text url_caption img = false).
Proof.
  exists (Canvas DARKER_BG (display_list env progress phase)).
  split; [apply create_chat_demo_frame_draws|].
  unfold draws_text, drawn. rewrite display_list_caption. split.
  - rewrite andb_true_iff, Z.eqb_eq, Qltb_lt. reflexivity.
  - intro H. apply andb_false_iff. right. apply Qltb_ge.
    rewrite H. apply Qle_refl.
Qed.

(** C1 (as amended). For every progress value, the [alpha] computed for the
    user bubble is [min(1, progress*4)] during phase 0 (it is 1 from a
    quarter of the phase on) and 1 in every phase >= 1, but it is not
    applied to the drawing: in every phase >= 0 the bubble is drawn as the
    same opaque rounded rectangle, and the frame of phase 0 is the same
    image at every progress. *)
Theorem user_bubble_alpha_unused (env : Env) (progress : Q) (phase : Z) :
  (user_bubble_alpha progress 0 == Qmin 1 (progress * 4))%Q
  /\ ((1 # 4 <= progress)%Q -> user_bubble_alpha progress 0 = 1%Q)
  /\ (1 <= phase -> user_bubble_alpha progress phase = 1%Q)
  /\ exists img,
       create_chat_demo_frame env progress phase = Ok img
       /\ (0 <= phase -> In user_bubble_rectangle (drawn img))
       /\ (phase = 0 ->
           forall progress',
             create_chat_demo_frame env progress' phase = Ok img).
Proof.
  repeat split.
  - unfold user_bubble_alpha. cbn [Z.eqb]. apply min_Qmin.
  - intro H. unfold user_bubble_alpha. cbn [Z.eqb]. apply min_saturated.
    apply Qle_trans with ((1 # 4) * 4)%Q; [now vm_compute|].
    apply Qmult_le_compat_r; [exact H | now vm_compute].
  - intro H. unfold user_bubble_alpha.
    destruct (phase =? 0) eqn:E; [|reflexivity].
    apply Z.eqb_eq in E. lia.
  - exists (Canvas DARKER_BG (display_list env progress phase)).
    split; [apply create_chat_demo_frame_draws|]. split.
    + intro H. unfold drawn, display_list.
      apply in_or_app. right. apply in_or_app. left.
      unfold user_bubble.
      destruct (phase >=? 0) eqn:E; [now left|].
      rewrite Z.geb_leb in E. apply Z.leb_gt in E. lia.
    + intros -> progress'. rewrite create_chat_demo_frame_draws.
      reflexivity.
Qed.

(** C1, the claim as stated fails: no reading of the rendered frame gives
    back the fade-in alpha [min(1, progress*4)], since the frames of phase
    0 at progress 0 and at progress 1/4 are the same image. *)
Lemma user_bubble_alpha_not_shown :
  ~ exists shown_alpha : Image -> Q,
      forall progress img,
        create_chat_demo_frame no_fonts progress 0 = Ok img ->
        (shown_alpha img == min 1 (progress * 4))%Q.
Proof.
  intros [shown_alpha H].
  set (img := Canvas DARKER_BG (display_list no_fonts 0 0)).
  pose proof (H 0%Q img (create_chat_demo_frame_draws no_fonts 0 0)) as H0.
  pose proof (H (1 # 4)%Q img
                (create_chat_demo_frame_draws no_fonts (1 # 4) 0)) as H1.
  rewrite H0 in H1. revert H1. now vm_compute.
Qed.

(** C5. While [phase == 2] (progress not negative), the preview list shows
    the first [floor(4 * min(1, progress*2))] todo items, which is all 4 of
    them for every progress >= 0.5; an item is drawn in one of two distinct
    colours, chosen by its done flag. *)
Theorem preview_items_reveal (env : Env) (progress : Q) :
  (0 <= progress)%Q ->
  exists img,
    create_chat_demo_frame env progress 2 = Ok img
    /\ let n := Qfloor (4 * Qmin 1 (progress * 2)) in
       todo_items_drawn img
       = List.map (fun '(todo, done) =>
                     (todo, if done : bool then CYAN else WHITE))
           (firstn (Z.to_nat n) todos)
       /\ len (todo_items_drawn img) = n
       /\ ((1 # 2 <= progress)%Q -> n = 4)
       /\ CYAN <> WHITE.
Proof.
  intro Hp.
  exists (Canvas DARKER_BG (display_list env progress 2)).
  split; [apply create_chat_demo_frame_draws|].
  cbv zeta.
  assert (Hk : int (inject_Z (len todos) * preview_opacity progress 2)
               = Qfloor (4 * Qmin 1 (progress * 2))).
  { unfold preview_opacity. cbn [Z.eqb Pos.eqb].
    rewrite int_floor.
    - apply Qfloor_comp. rewrite min_Qmin. reflexivity.
    - apply Qmult_le_0_compat; [now vm_compute|].
      apply min_nonneg; [now vm_compute|].
      apply Qmult_le_0_compat; [exact Hp | now vm_compute]. }
  set (n := Qfloor (4 * Qmin 1 (progress * 2))) in *.
  assert (Hn : 0 <= n <= 4).
  { subst n. split.
    - change 0 with (Qfloor 0). apply Qfloor_resp_le.
      apply Qmult_le_0_compat; [now vm_compute|].
      rewrite <- min_Qmin. apply min_nonneg; [now vm_compute|].
      apply Qmult_le_0_compat; [exact Hp | now vm_compute].
    - change 4 with (Qfloor 4) at 2. apply Qfloor_resp_le.
      rewrite <- (Qmult_1_r 4) at 2. rewrite !(Qmult_comm 4).
      apply Qmult_le_compat_r; [apply Q.le_min_l | now vm_compute]. }
  assert (Hitems :
            todo_items_drawn (Canvas DARKER_BG (display_list env progress 2))
            = List.map (fun '(todo, done) =>
                          (todo, if done : bool then CYAN else WHITE))
                (firstn (Z.to_nat n) todos)).
  { unfold todo_items_drawn, drawn, display_list.
    rewrite !todo_items_of_app.
    replace (todo_items_of (chrome env)) with (@nil (pystr * color))
      by reflexivity.
    replace (todo_items_of (user_bubble env 2)) with (@nil (pystr * color))
      by reflexivity.
    replace (todo_items_of (agent_bubble env progress 2))
      with (@nil (pystr * color)) by (now vm_compute).
    cbn [app]. unfold preview.
    cbn [Z.geb Z.compare Pos.compare Pos.compare_cont].
    rewrite !todo_items_of_app.
    replace (todo_items_of (url_display env progress 2))
      with (@nil (pystr * color))
      by (unfold url_display;
          destruct ((2 =? 2) && Qltb (1 # 2) progress); reflexivity).
    rewrite app_nil_r. unfold visible_todos. rewrite Hk.
    assert (Hcases : n = 0 \/ n = 1 \/ n = 2 \/ n = 3 \/ n = 4) by lia.
    clearbody n.
    destruct Hcases as [-> | [-> | [-> | [-> | ->]]]]; now vm_compute. }
  split; [exact Hitems|]. split; [|split].
  - rewrite Hitems. unfold len. rewrite length_map, length_firstn.
    change (List.length todos) with 4%nat. lia.
  - intro Hhalf. subst n.
    rewrite (Q.min_l 1 (progress * 2)).
    + reflexivity.
    + apply Qle_trans with ((1 # 2) * 2)%Q; [now vm_compute|].
      apply Qmult_le_compat_r; [exact Hhalf | now vm_compute].
  - discriminate.
Qed.

(** C5, at a concrete frame: phase 2, progress 3/10 shows two items. *)
Lemma preview_items_reveal_witness :
  (0 <= 3 # 10)%Q
  /\ exists img,
       create_chat_demo_frame no_fonts (3 # 10) 2 = Ok img
       /\ len (todo_items_drawn img) = 2.
Proof.
  split; [now vm_compute|].
  destruct (preview_items_reveal no_fonts (3 # 10)) as (img & Himg & H);
    [now vm_compute|].
  exists img. split; [exact Himg|].
  destruct H as (_ & Hlen & _). exact Hlen.
Defined.



End PhasedFrame.

(** ** Font resolution never fails *)

Module FontResolution.

(** C9. For every size and bold flag [get_font] returns a font and never
    raises: the font of the first path of the ordered list that exists and
    loads, and the built-in default font when there is none. *)
Theorem get_font_never_raises (env : Env) (size : Z) (bold : bool) :
  exists font,
    get_font env size bold = Ok font
    /\ font_names bold
       = [HELVETICA; SFNS; if bold then ARIAL_BOLD else ARIAL]
    /\ match find (fun p => path_exists env p && loadable env p size)
               (font_names bold) with
       | Some p => font = FreeTypeFont p size
       | None => font = DefaultFont
       end.
Proof.
  unfold get_font. rewrite get_font_loop_find.
  destruct (find _ (font_names bold)) as [p|]; cbn [option_map].
  - exists (FreeTypeFont p size). repeat split.
  - exists DefaultFont. repeat split.
Qed.

(** A font file that exists but fails to load is skipped. *)
Example get_font_skips_broken_file :
  get_font broken_helvetica 24 false = Ok (FreeTypeFont SFNS 24)
  /\ get_font broken_helvetica 24 true = Ok (FreeTypeFont SFNS 24)
  /\ get_font no_fonts 24 true = Ok DefaultFont.
Proof. repeat split. Qed.

End FontResolution.

(** ** The loops of [main] *)

Module Loops.

Section Loops.

Variable env : Env.

Lemma create_intro_slide_returns :
  exists ops, create_intro_slide env = Ok (Canvas DARK_BG ops).
Proof.
  unfold create_intro_slide, on_canvas. rewrite !get_font_resolve.
  cbv [bind emit lift text ret]. eexists. reflexivity.
Qed.

Lemma create_outro_slide_returns :
  exists ops, create_outro_slide env = Ok (Canvas DARK_BG ops).
Proof.
  unfold create_outro_slide, on_canvas. rewrite !get_font_resolve.
  cbv [bind emit lift text ret]. eexists. reflexivity.
Qed.

Lemma intro_frame_fade (intro_img : Image) (i : Z) :
  intro_frame intro_img i
  = Ok (fade_contract intro_img (new DARK_BG) i 30 30 150).
Proof.
  unfold intro_frame, fade_contract, truediv, copy. cbn [Z.eqb rbind].
  change (150 - 30) with 120.
  destruct (i <? 30); [reflexivity|]. destruct (i >? 120); reflexivity.
Qed.

Lemma outro_frame_fade (outro_img : Image) (i : Z) :
  outro_frame outro_img i
  = Ok (fade_contract outro_img (new DARK_BG) i 30 30 180).
Proof.
  unfold outro_frame, fade_contract, truediv, copy. cbn [Z.eqb rbind].
  change (180 - 30) with 150.
  destruct (i <? 30); [reflexivity|]. destruct (i >? 150); reflexivity.
Qed.

(** A loop that saves one frame per index saves them in order. *)
Lemma for_each_saves {A B} (g : A -> result B) (h : A -> B) (xs : list A) :
  (forall i, In i xs -> g i = Ok (h i)) ->
  forall saved,
    for_each xs
      (fun i saved => let! frame := g i in Ok (saved ++ [(i, frame)])) saved
    = Ok (saved ++ List.map (fun i => (i, h i)) xs).
Proof.
  induction xs as [|x xs IH]; intros Hg saved; cbn [for_each List.map].
  - now rewrite app_nil_r.
  - rewrite (Hg x) by now left. cbn [rbind].
    rewrite IH by (intros i Hi; apply Hg; now right).
    now rewrite <- app_assoc.
Qed.

Lemma intro_loop_saves (intro_img : Image) :
  create_intro_slide env = Ok intro_img ->
  intro_loop env
  = Ok (List.map
          (fun i => (i, fade_contract intro_img (new DARK_BG) i 30 30 150))
          (range 150)).
Proof.
  intro H. unfold intro_loop. rewrite H. cbn [rbind].
  rewrite (for_each_saves (intro_frame intro_img)
             (fun i => fade_contract intro_img (new DARK_BG) i 30 30 150)).
  - reflexivity.
  - intros i _. apply intro_frame_fade.
Qed.

Lemma outro_loop_saves (outro_img : Image) :
  create_outro_slide env = Ok outro_img ->
  outro_loop env
  = Ok (List.map
          (fun i => (i, fade_contract outro_img (new DARK_BG) i 30 30 180))
          (range 180)).
Proof.
  intro H. unfold outro_loop. rewrite H. cbn [rbind].
  rewrite (for_each_saves (outro_frame outro_img)
             (fun i => fade_contract outro_img (new DARK_BG) i 30 30 180)).
  - reflexivity.
  - intros i _. apply outro_frame_fade.
Qed.

(** The inner loop of the chat demo, from step [a] on. *)
Lemma inner_loop_saves (phase frames start : Z) (m : nat) :
  0 < frames ->
  forall (a : nat) (saved : list ChatFrame),
    for_each (List.map Z.of_nat (seq a m))
      (fun i '(frame_idx, saved) =>
         let! progress := truediv i frames in
         let! frame := create_chat_demo_frame env progress phase in
         Ok (frame_idx + 1,
             saved ++ [{| cf_index := frame_idx; cf_phase := phase;
                          cf_progress := progress; cf_image := frame |}]))
      (start + Z.of_nat a, saved)
    = Ok (start + Z.of_nat a + Z.of_nat m,
          saved ++ List.map (chat_frame env start phase frames)
                     (List.map Z.of_nat (seq a m))).
Proof.
  intro Hpos. induction m as [|m IH]; intros a saved.
  - cbn. rewrite app_nil_r. f_equal. f_equal. lia.
  - cbn [seq List.map for_each]. unfold truediv at 1.
    replace (frames =? 0) with false by (symmetry; apply Z.eqb_neq; lia).
    cbn [rbind]. rewrite create_chat_demo_frame_draws. cbn [rbind].
    replace (start + Z.of_nat a + 1) with (start + Z.of_nat (S a)) by lia.
    rewrite IH. rewrite <- app_assoc. cbn [app]. unfold chat_frame at 3.
    f_equal. f_equal. lia.
Qed.

Lemma range_empty (n : Z) : n <= 0 -> range n = [].
Proof.
  intro H. unfold range. replace (Z.to_nat n) with 0%nat by lia. reflexivity.
Qed.

Lemma range_length (n : Z) : 0 <= n -> len (range n) = n.
Proof.
  intro H. unfold range, len. rewrite length_map, length_seq. lia.
Qed.

Lemma range_nth (n i : Z) :
  0 <= i < n -> nth_error (range n) (Z.to_nat i) = Some i.
Proof.
  intro H. unfold range. rewrite nth_error_map.
  rewrite nth_error_seq.
  replace (Z.to_nat i <? Z.to_nat n)%nat with true
    by (symmetry; apply Nat.ltb_lt; lia).
  cbn. f_equal. lia.
Qed.

(** The nested loop saves the timeline. *)
Lemma outer_loop_saves (phase_frames : list Z) :
  Forall (fun n => 0 < n) phase_frames ->
  forall (phase start : Z) (saved : list ChatFrame),
    for_each (enumerate_from phase phase_frames)
      (fun '(phase, frames) =>
         for_each (range frames)
           (fun i '(frame_idx, saved) =>
              let! progress := truediv i frames in
              let! frame := create_chat_demo_frame env progress phase in
              Ok (frame_idx + 1,
                  saved ++ [{| cf_index := frame_idx; cf_phase := phase;
                               cf_progress := progress;
                               cf_image := frame |}])))
      (start, saved)
    = Ok (start + sum phase_frames,
          saved ++ timeline env phase start phase_frames).
Proof.
  induction 1 as [|n rest Hn Hrest IH]; intros phase start saved.
  - cbn. rewrite app_nil_r. f_equal. f_equal. lia.
  - cbn [enumerate_from for_each timeline sum fold_right].
    unfold range at 1.
    pose proof (inner_loop_saves phase n start (Z.to_nat n) Hn 0 saved) as H.
    replace (start + Z.of_nat 0) with start in H by lia.
    rewrite H. cbn [rbind]. fold (range n). fold (sum rest).
    replace (start + Z.of_nat (Z.to_nat n)) with (start + n) by lia.
    rewrite IH. rewrite <- app_assoc. f_equal. f_equal. lia.
Qed.

Lemma chat_loop_saves (phase_frames : list Z) :
  Forall (fun n => 0 < n) phase_frames ->
  chat_loop env phase_frames
  = Ok (sum phase_frames, timeline env 0 0 phase_frames).
Proof.
  intro H. unfold chat_loop, enumerate.
  rewrite (outer_loop_saves phase_frames H 0 0 []). reflexivity.
Qed.

End Loops.

End Loops.

Import Loops.

(** ** The timeline driver *)

Module Timeline.

Lemma sum_app (xs ys : list Z) : sum (xs ++ ys) = sum xs + sum ys.
Proof.
  unfold sum. induction xs as [|x xs IH]; cbn [app fold_right]; lia.
Qed.

Lemma sum_nonneg (xs : list Z) : Forall (fun n => 0 < n) xs -> 0 <= sum xs.
Proof.
  unfold sum. induction 1 as [|x xs Hx _ IH]; cbn [fold_right]; lia.
Qed.

Lemma len_app {A} (xs ys : list A) : len (xs ++ ys) = len xs + len ys.
Proof. unfold len. rewrite length_app. lia. Qed.

Section Timeline.

Variable env : Env.

Lemma timeline_length (phase_frames : list Z) :
  Forall (fun n => 0 < n) phase_frames ->
  forall phase start,
    len (timeline env phase start phase_frames) = sum phase_frames.
Proof.
  induction 1 as [|n rest Hn _ IH]; intros phase start; [reflexivity|].
  cbn [timeline]. rewrite len_app, IH.
  unfold len at 1. rewrite length_map. fold (len (range n)).
  rewrite range_length by lia. reflexivity.
Qed.

Lemma timeline_app (pre post : list Z) :
  forall phase start,
    timeline env phase start (pre ++ post)
    = timeline env phase start pre
      ++ timeline env (phase + len pre) (start + sum pre) post.
Proof.
  induction pre as [|n pre IH]; intros phase start.
  - cbn. f_equal; lia.
  - cbn [app timeline]. rewrite IH, <- app_assoc. f_equal. f_equal.
    unfold len, sum. cbn [length fold_right]. f_equal; lia.
Qed.

(** Step [i] of the phase that follows the phases [pre]. *)
Lemma timeline_nth (pre post : list Z) (n i : Z) :
  Forall (fun n => 0 < n) pre ->
  0 <= i < n ->
  nth_error (timeline env 0 0 (pre ++ n :: post)) (Z.to_nat (sum pre + i))
  = Some (chat_frame env (sum pre) (len pre) n i).
Proof.
  intros Hpre Hi. rewrite timeline_app.
  pose proof (timeline_length pre Hpre 0 0) as Hlen.
  pose proof (sum_nonneg pre Hpre) as Hsum.
  rewrite nth_error_app2 by (unfold len in Hlen; lia).
  replace (Z.to_nat (sum pre + i)
           - List.length (timeline env 0 0 pre))%nat with (Z.to_nat i)
    by (unfold len in Hlen; lia).
  cbn [timeline]. rewrite nth_error_app1.
  - rewrite nth_error_map, range_nth by exact Hi. reflexivity.
  - rewrite length_map. pose proof (range_length n) as Hr.
    unfold len in Hr. lia.
Qed.

(** Every frame index in range falls in exactly one phase. *)
Lemma locate_exists (phase_frames : list Z) :
  Forall (fun n => 0 < n) phase_frames ->
  forall frame_index,
    0 <= frame_index < sum phase_frames ->
    exists pre n post i,
      phase_frames = pre ++ n :: post
      /\ frame_index = sum pre + i /\ 0 <= i < n.
Proof.
  induction 1 as [|n rest Hn Hrest IH]; intros k Hk.
  - cbn in Hk. lia.
  - destruct (Z_lt_le_dec k n) as [Hlt | Hge].
    + exists [], n, rest, k. cbn. repeat split; lia.
    + destruct (IH (k - n)) as (pre & n' & post & i & -> & Hki & Hi).
      { unfold sum in Hk |- *. cbn [fold_right] in Hk. lia. }
      exists (n :: pre), n', post, i. repeat split; try lia.
      unfold sum in Hki |- *. cbn [fold_right]. lia.
Qed.

Lemma progress_in_range (n i : Z) :
  0 <= i < n -> (0 <= inject_Z i / inject_Z n < 1)%Q.
Proof.
  intro H.
  assert (Hn : (0 < inject_Z n)%Q).
  { change 0%Q with (inject_Z 0). rewrite <- Zlt_Qlt. lia. }
  split.
  - apply Qle_shift_div_l; [exact Hn|]. rewrite Qmult_0_l.
    change 0%Q with (inject_Z 0). rewrite <- Zle_Qle. lia.
  - apply Qlt_shift_div_r; [exact Hn|]. rewrite Qmult_1_l.
    rewrite <- Zlt_Qlt. lia.
Qed.

End Timeline.

(** C3. For every frame index in range of a timeline of positive phase
    durations, the nested loop saves under that index a frame whose phase
    id is a valid phase and whose progress lies in [0, 1); the first frame
    of a phase has progress 0 and the last frame of a phase of duration [n]
    has progress [(n-1)/n], below 1. *)
Theorem timeline_locates (env : Env) (phase_frames : list Z) :
  Forall (fun n => 0 < n) phase_frames ->
  exists saved,
    chat_loop env phase_frames = Ok (sum phase_frames, saved)
    /\ (forall frame_index,
          0 <= frame_index < sum phase_frames ->
          exists cf,
            nth_error saved (Z.to_nat frame_index) = Some cf
            /\ cf_index cf = frame_index
            /\ 0 <= cf_phase cf < len phase_frames
            /\ (0 <= cf_progress cf < 1)%Q
            /\ create_chat_demo_frame env (cf_progress cf) (cf_phase cf)
               = Ok (cf_image cf))
    /\ (forall pre n post,
          phase_frames = pre ++ n :: post ->
          exists first last,
            nth_error saved (Z.to_nat (sum pre)) = Some first
            /\ cf_phase first = len pre
            /\ (cf_progress first == 0)%Q
            /\ nth_error saved (Z.to_nat (sum pre + n - 1)) = Some last
            /\ cf_phase last = len pre
            /\ (cf_progress last == inject_Z (n - 1) / inject_Z n)%Q
            /\ (cf_progress last < 1)%Q).
Proof.
  intro Hpos. exists (timeline env 0 0 phase_frames).
  split; [apply chat_loop_saves, Hpos|]. split.
  - intros k Hk.
    destruct (locate_exists phase_frames Hpos k Hk)
      as (pre & n & post & i & -> & -> & Hi).
    apply Forall_app in Hpos. destruct Hpos as [Hpre _].
    exists (chat_frame env (sum pre) (len pre) n i).
    split; [apply timeline_nth; assumption|].
    cbn [chat_frame cf_index cf_phase cf_progress cf_image].
    split; [reflexivity|]. split.
    + rewrite len_app. unfold len. cbn [length]. lia.
    + split; [apply progress_in_range, Hi|].
      apply create_chat_demo_frame_draws.
  - intros pre n post ->.
    apply Forall_app in Hpos. destruct Hpos as [Hpre Hn].
    apply Forall_inv in Hn.
    exists (chat_frame env (sum pre) (len pre) n 0),
           (chat_frame env (sum pre) (len pre) n (n - 1)).
    cbn [chat_frame cf_index cf_phase cf_progress cf_image].
    split.
    { rewrite <- (timeline_nth env pre post n 0) by (assumption || lia).
      f_equal. f_equal. lia. }
    split; [reflexivity|]. split.
    { unfold Qdiv. apply Qmult_0_l. }
    split.
    { rewrite <- (timeline_nth env pre post n (n - 1)) by (assumption || lia).
      f_equal. f_equal. lia. }
    split; [reflexivity|]. split; [reflexivity|].
    apply progress_in_range. lia.
Qed.

(** C3, on the timeline of the chat demo. *)
Lemma timeline_locates_witness :
  Forall (fun n => 0 < n) [90; 180; 90]
  /\ exists saved,
       chat_loop no_fonts [90; 180; 90] = Ok (360, saved)
       /\ exists last,
            nth_error saved 269 = Some last
            /\ cf_phase last = 1
            /\ (cf_progress last == 179 # 180)%Q.
Proof.
  assert (Hpos : Forall (fun n => 0 < n) [90; 180; 90])
    by (repeat constructor).
  split; [exact Hpos|].
  destruct (timeline_locates no_fonts [90; 180; 90] Hpos)
    as (saved & Hloop & _ & Hends).
  exists saved. split; [exact Hloop|].
  destruct (Hends [90] 180 [90] eq_refl)
    as (first & last & _ & _ & _ & Hlast & Hphase & Hprogress & _).
  exists last. split; [exact Hlast|]. split; [exact Hphase|].
  rewrite Hprogress. reflexivity.
Defined.

End Timeline.

(** ** The frame sequences written by [main] *)

Module Main.

(** What [main] writes, given the two slides. *)
Lemma main_output (env : Env) (intro_img outro_img : Image) :
  create_intro_slide env = Ok intro_img ->
  create_outro_slide env = Ok outro_img ->
  main env
  = Ok {| intro :=
            List.map
              (fun i => (i, fade_contract intro_img (new DARK_BG) i 30 30 150))
              (range 150);
          chat := timeline env 0 0 [90; 180; 90];
          outro :=
            List.map
              (fun i => (i, fade_contract outro_img (new DARK_BG) i 30 30 180))
              (range 180) |}.
Proof.
  intros Hintro Houtro. unfold main.
  rewrite (intro_loop_saves env intro_img Hintro). cbn [rbind]. cbv zeta.
  rewrite chat_loop_saves by (repeat constructor). cbn [rbind].
  rewrite (outro_loop_saves env outro_img Houtro). reflexivity.
Qed.

Lemma blend_channel_zero (a b : Z) (alpha : Q) :
  (alpha == 0)%Q -> blend_channel a b alpha = a.
Proof.
  intro H. unfold blend_channel.
  transitivity (int (inject_Z a)); [|apply int_inject_Z].
  apply int_proper. rewrite H. ring.
Qed.

Lemma blend_color_zero (c1 c2 : color) (alpha : Q) :
  (alpha == 0)%Q -> blend_color c1 c2 alpha = c1.
Proof.
  intro H. destruct c1 as [[r1 g1] b1], c2 as [[r2 g2] b2].
  unfold blend_color. now rewrite !blend_channel_zero.
Qed.

(** C2 (as amended). In the 360-frame chat-demo sequence written by [main]
    with phase durations [90, 180, 90], the frame at global index 269 is
    the last frame of phase 1 (progress 179/180) and shows no preview item
    and no URL caption; the frame at global index 316 belongs to phase 2
    with progress 46/90, just above 0.5, and shows all 4 preview items and
    the URL caption. *)
Theorem chat_frames_269_and_316 (env : Env) :
  exists out f269 f316,
    main env = Ok out
    /\ len (chat out) = 360
    /\ nth_error (chat out) 269 = Some f269
    /\ cf_index f269 = 269
    /\ cf_phase f269 = 1
    /\ (cf_progress f269 == 179 # 180)%Q
    /\ todo_items_drawn (cf_image f269) = []
    /\ draws_text url_caption (cf_image f269) = false
    /\ nth_error (chat out) 316 = Some f316
    /\ cf_index f316 = 316
    /\ cf_phase f316 = 2
    /\ (cf_progress f316 == 46 # 90)%Q
    /\ len (todo_items_drawn (cf_image f316)) = 4
    /\ draws_text url_caption (cf_image f316) = true.
Proof.
  destruct (create_intro_slide_returns env) as [intro_ops Hintro].
  destruct (create_outro_slide_returns env) as [outro_ops Houtro].
  eexists. exists (chat_frame env 90 1 180 179), (chat_frame env 270 2 90 46).
  split; [exact (main_output env _ _ Hintro Houtro)|].
  cbn [chat intro outro].
  split.
  { rewrite Timeline.timeline_length by (repeat constructor). reflexivity. }
  split.
  { apply (Timeline.timeline_nth env [90] [90] 180 179);
      [repeat constructor | lia]. }
  cbn [chat_frame cf_index cf_phase cf_progress cf_image].
  split; [reflexivity|]. split; [reflexivity|]. split; [reflexivity|].
  split; [now vm_compute|].
  split.
  { unfold draws_text, drawn. rewrite display_list_caption. reflexivity. }
  split.
  { apply (Timeline.timeline_nth env [90; 180] [] 90 46);
      [repeat constructor | lia]. }
  split; [reflexivity|]. split; [reflexivity|]. split; [reflexivity|].
  split; [now vm_compute|].
  unfold draws_text, drawn. rewrite display_list_caption. reflexivity.
Qed.

(** C2, the claim as stated fails: frame 269 of the chat demo does not
    belong to phase 2, and it shows neither a preview item nor the URL
    caption. *)
Lemma chat_frame_269_has_no_preview :
  exists out cf,
    main no_fonts = Ok out
    /\ nth_error (chat out) 269 = Some cf
    /\ cf_phase cf <> 2
    /\ ~ (cf_progress cf == 1 # 2)%Q
    /\ todo_items_drawn (cf_image cf) = []
    /\ draws_text url_caption (cf_image cf) = false.
Proof.
  destruct (create_intro_slide_returns no_fonts) as [intro_ops Hintro].
  destruct (create_outro_slide_returns no_fonts) as [outro_ops Houtro].
  eexists. exists (chat_frame no_fonts 90 1 180 179).
  split; [exact (main_output no_fonts _ _ Hintro Houtro)|].
  cbn [chat]. split; [reflexivity|].
  cbn [chat_frame cf_phase cf_progress cf_image].
  split; [discriminate|]. split; [now vm_compute|].
  split; now vm_compute.
Qed.

(** C7. For every frame index [i] of the intro (150 frames) and of the
    outro (180 frames), with fade lengths 30, the frame saved is the fade
    contract: background blended toward the slide with factor [i / 30]
    while [i < 30], slide blended toward the background with factor
    [(i - (total_len - 30)) / 30] once [i > total_len - 30], else the slide
    unchanged. Frame 0 is pure background, and the boundary frames at
    [i = 30] and [i = total_len - 30] are the unblended slide. *)
Theorem fade_envelope (env : Env) :
  exists intro_img outro_img out,
    create_intro_slide env = Ok intro_img
    /\ create_outro_slide env = Ok outro_img
    /\ main env = Ok out
    /\ intro out
       = List.map
           (fun i => (i, fade_contract intro_img (new DARK_BG) i 30 30 150))
           (range 150)
    /\ outro out
       = List.map
           (fun i => (i, fade_contract outro_img (new DARK_BG) i 30 30 180))
           (range 180)
    /\ (exists f0 g0,
          nth_error (intro out) 0 = Some (0, f0)
          /\ nth_error (outro out) 0 = Some (0, g0)
          /\ forall xy,
               pixel env f0 xy = DARK_BG /\ pixel env g0 xy = DARK_BG)
    /\ nth_error (intro out) 30 = Some (30, intro_img)
    /\ nth_error (intro out) 120 = Some (120, intro_img)
    /\ nth_error (outro out) 30 = Some (30, outro_img)
    /\ nth_error (outro out) 150 = Some (150, outro_img).
Proof.
  destruct (create_intro_slide_returns env) as [intro_ops Hintro].
  destruct (create_outro_slide_returns env) as [outro_ops Houtro].
  exists (Canvas DARK_BG intro_ops), (Canvas DARK_BG outro_ops).
  eexists.
  split; [exact Hintro|]. split; [exact Houtro|].
  split; [exact (main_output env _ _ Hintro Houtro)|].
  cbn [intro outro].
  split; [reflexivity|]. split; [reflexivity|]. split.
  - do 2 eexists. split; [reflexivity|]. split; [reflexivity|].
    intro xy. split; cbn [pixel]; apply blend_color_zero; reflexivity.
  - repeat split.
Qed.

(** C10. The fade-out never completes: the last frame of the intro (index
    149 of 150) and of the outro (index 179 of 180) is the slide blended
    toward the background with factor 29/30, below 1, so each pixel keeps a
    share of the slide; the text colours of the slides stay distinct from
    the background. *)
Theorem fade_out_incomplete (env : Env) :
  exists intro_img outro_img out alpha,
    create_intro_slide env = Ok intro_img
    /\ create_outro_slide env = Ok outro_img
    /\ main env = Ok out
    /\ len (intro out) = 150
    /\ len (outro out) = 180
    /\ nth_error (intro out) 149
       = Some (149, Blend intro_img (new DARK_BG) alpha)
    /\ nth_error (outro out) 179
       = Some (179, Blend outro_img (new DARK_BG) alpha)
    /\ (alpha == 29 # 30)%Q
    /\ (alpha < 1)%Q
    /\ (forall xy,
          pixel env (Blend intro_img (new DARK_BG) alpha) xy
          = blend_color (pixel env intro_img xy) DARK_BG alpha)
    /\ blend_color INDIGO DARK_BG alpha <> DARK_BG
    /\ blend_color WHITE DARK_BG alpha <> DARK_BG
    /\ blend_color CYAN DARK_BG alpha <> DARK_BG.
Proof.
  destruct (create_intro_slide_returns env) as [intro_ops Hintro].
  destruct (create_outro_slide_returns env) as [outro_ops Houtro].
  exists (Canvas DARK_BG intro_ops), (Canvas DARK_BG outro_ops).
  eexists. exists (inject_Z 29 / inject_Z 30)%Q.
  split; [exact Hintro|]. split; [exact Houtro|].
  split; [exact (main_output env _ _ Hintro Houtro)|].
  cbn [intro outro].
  repeat split; try discriminate.
Qed.

End Main.

(** ** The rational model against binary64 *)

Module Binary64Facts.

Import PrimFloat.

(** [int] truncates toward zero. *)
Example int_truncates :
  Binary64.int 118.75 = 118 /\ Binary64.int (-3.5) = -3
  /\ Binary64.int 238 = 238 /\ Binary64.int 0 = 0.
Proof. repeat split. Qed.

(** X19. On every frame of the chat demo, the text, the todo items and the
    caption computed in binary64 are those of the rational model. *)
Lemma chat_frames_same_in_binary64 :
  forallb (fun '(phase, frames) =>
             forallb (Binary64.same_frame phase frames) (range frames))
    (enumerate [90; 180; 90])
  = true.
Proof. now vm_compute. Qed.

(** In binary64 too, the progress of every frame of the chat demo lies
    in [0, 1). *)
Lemma chat_progress_in_binary64 :
  forallb (fun frames =>
             forallb (fun i =>
                        let progress := Binary64.truediv i frames in
                        (0 <=? progress)%float && (progress <? 1)%float)
               (range frames))
    [90; 180; 90]
  = true.
Proof. now vm_compute. Qed.

(** The fade factors in binary64: 0 on the first frame, below 1 on the
    last. *)
Lemma fade_factors_in_binary64 :
  Binary64.truediv 0 30 = 0%float
  /\ forallb (fun i => (Binary64.truediv i 30 <? 1)%float) (range 30) = true.
Proof. split; now vm_compute. Qed.

End Binary64Facts.

(** ** More on the phased frame compositor *)

Module FrameLayers.

(** Turn the phase tests in the context into inequalities. *)
Ltac phase_facts :=
  repeat match goal with
    | H : (_ >=? _) = true |- _ =>
        rewrite Z.geb_leb in H; apply Z.leb_le in H
    | H : (_ >=? _) = false |- _ =>
        rewrite Z.geb_leb in H; apply Z.leb_gt in H
    end.

Section FrameLayers.

Variable env : Env.

(** A string with a character that the response and the caret lack is
    none of the lines of the agent text. *)
Lemma text_lines_avoid (progress : Q) (phase y : Z) (s : pystr) (c : N) :
  In c s -> ~ In c agent_response -> c <> caret_glyph ->
  existsb (is_text s)
    (text_lines env (split_lines (visible_text progress phase)) y) = false.
Proof.
  intros Hc Hresp Hcaret. apply existsb_false. intros op Hop.
  apply text_lines_In in Hop. destruct Hop as (line & y' & Hin & ->).
  cbn [is_text]. destruct (str_eqb line s) eqn:E; [|reflexivity].
  apply str_eqb_eq in E. subst line. exfalso.
  pose proof (split_lines_chars _ _ _ Hin Hc) as H.
  apply visible_text_chars in H. destruct H as [H | [H | []]].
  - exact (Hresp H).
  - exact (Hcaret (eq_sym H)).
Qed.

(** A string that is no todo label is none of the items of the list. *)
Lemma todo_items_avoid (progress : Q) (phase y : Z) (s : pystr) :
  is_todo_label s = false ->
  existsb (is_text s) (todo_items env (visible_todos progress phase) y)
  = false.
Proof.
  intro Hs. apply existsb_false. intros op Hop.
  apply todo_items_In in Hop.
  destruct Hop as (todo & done & y' & Hin & ->).
  apply visible_todos_incl in Hin. cbn [is_text].
  destruct (str_eqb todo s) eqn:E; [|reflexivity].
  apply str_eqb_eq in E. subst s. exfalso.
  assert (Ht : is_todo_label todo = true).
  { unfold is_todo_label. apply existsb_exists.
    exists (todo, done). split; [exact Hin|].
    cbn [fst]. now apply str_eqb_eq. }
  congruence.
Qed.

Lemma phase_flags (phase : Z) :
  ((phase >=? 0) = true <-> 0 <= phase)
  /\ ((phase >=? 1) = true <-> 1 <= phase)
  /\ ((phase >=? 2) = true <-> 2 <= phase).
Proof. rewrite !Z.geb_leb, !Z.leb_le. repeat split; intro; assumption. Qed.

(** Where a layer's own string is drawn. *)
Lemma display_list_user_msg (progress : Q) (phase : Z) :
  existsb (is_text user_msg) (display_list env progress phase)
  = (phase >=? 0).
Proof.
  unfold display_list, user_bubble, agent_bubble, preview, url_display.
  rewrite !existsb_app.
  destruct (phase >=? 0) eqn:E0; [reflexivity|].
  destruct (phase >=? 1) eqn:E1; [phase_facts; lia|].
  destruct (phase >=? 2) eqn:E2; [phase_facts; lia|].
  reflexivity.
Qed.

Lemma display_list_agent_label (progress : Q) (phase : Z) :
  existsb (is_text agent_label) (display_list env progress phase)
  = (phase >=? 1).
Proof.
  unfold display_list, user_bubble, agent_bubble, preview, url_display.
  rewrite !existsb_app.
  destruct (phase >=? 1) eqn:E1.
  - destruct (phase >=? 0); cbn; reflexivity.
  - destruct (phase >=? 2) eqn:E2; [phase_facts; lia|].
    destruct (phase >=? 0); reflexivity.
Qed.

Lemma display_list_preview_title (progress : Q) (phase : Z) :
  existsb (is_text preview_title) (display_list env progress phase)
  = (phase >=? 2).
Proof.
  unfold display_list. rewrite !existsb_app.
  replace (existsb (is_text preview_title) (chrome env)) with false
    by reflexivity.
  replace (existsb (is_text preview_title) (user_bubble env phase))
    with false
    by (unfold user_bubble; destruct (phase >=? 0); reflexivity).
  replace (existsb (is_text preview_title) (agent_bubble env progress phase))
    with false.
  - cbn [orb]. unfold preview. destruct (phase >=? 2); reflexivity.
  - unfold agent_bubble. destruct (phase >=? 1); [|reflexivity].
    rewrite existsb_app.
    rewrite (text_lines_avoid progress phase _ preview_title 128221%N).
    + reflexivity.
    + now left.
    + vm_compute. intuition discriminate.
    + discriminate.
Qed.

End FrameLayers.

(** X1. A layer is drawn from its phase on, whatever the progress: the
    chat title in every frame, the user message exactly when [phase >= 0],
    the agent label exactly when [phase >= 1] and the title of the preview
    panel exactly when [phase >= 2]. *)
Theorem layers_appear_by_phase (env : Env) (progress : Q) (phase : Z) :
  exists img,
    create_chat_demo_frame env progress phase = Ok img
    /\ draws_text chat_title img = true
    /\ (draws_text user_msg img = true <-> 0 <= phase)
    /\ (draws_text agent_label img = true <-> 1 <= phase)
    /\ (draws_text preview_title img = true <-> 2 <= phase).
Proof.
  exists (Canvas DARKER_BG (display_list env progress phase)).
  split; [apply create_chat_demo_frame_draws|].
  unfold draws_text, drawn.
  rewrite display_list_user_msg, display_list_agent_label,
    display_list_preview_title.
  split; [reflexivity|]. apply phase_flags.
Qed.

(** X2. Outside the three phases: a negative phase draws the chat window
    alone; a phase above 2 draws the full response without caret and all
    four todo items, but never the URL caption. *)
Theorem frames_outside_the_phases (env : Env) (progress : Q) (phase : Z) :
  exists img,
    create_chat_demo_frame env progress phase = Ok img
    /\ (phase < 0 -> drawn img = chrome env)
    /\ (2 < phase ->
        agent_text_drawn img = split_lines agent_response
        /\ todo_items_drawn img
           = List.map (fun '(todo, done) =>
                         (todo, if done : bool then CYAN else WHITE)) todos
        /\ draws_text url_caption img = false).
Proof.
  exists (Canvas DARKER_BG (display_list env progress phase)).
  split; [apply create_chat_demo_frame_draws|].
  destruct (phase_flags phase) as (H0 & H1 & H2).
  split.
  - intro Hneg. unfold drawn, display_list, user_bubble, agent_bubble, preview.
    destruct (phase >=? 0) eqn:E0; [phase_facts; lia|].
    destruct (phase >=? 1) eqn:E1; [phase_facts; lia|].
    destruct (phase >=? 2) eqn:E2; [phase_facts; lia|].
    reflexivity.
  - intro Hbig.
    assert (E1 : (phase =? 1) = false) by (apply Z.eqb_neq; lia).
    assert (E2 : (phase =? 2) = false) by (apply Z.eqb_neq; lia).
    assert (G0 : (phase >=? 0) = true) by (apply H0; lia).
    assert (G1 : (phase >=? 1) = true) by (apply H1; lia).
    assert (G2 : (phase >=? 2) = true) by (apply H2; lia).
    split; [|split].
    + unfold agent_text_drawn, drawn. rewrite agent_text_of_display_list.
      rewrite G1. unfold visible_text. rewrite E1. reflexivity.
    + unfold todo_items_drawn, drawn, display_list, user_bubble,
        agent_bubble, preview, url_display, visible_todos, preview_opacity,
        visible_text.
      rewrite G0, G1, G2, E1, E2. now vm_compute.
    + unfold draws_text, drawn. rewrite display_list_caption, E2.
      reflexivity.
Qed.

(** X2, at phase -1 and phase 3. *)
Lemma frames_outside_the_phases_witness :
  (exists img,
     create_chat_demo_frame no_fonts (1 # 2) (-1) = Ok img
     /\ drawn img = chrome no_fonts)
  /\ exists img,
       create_chat_demo_frame no_fonts (9 # 10) 3 = Ok img
       /\ draws_text url_caption img = false.
Proof.
  split.
  - destruct (frames_outside_the_phases no_fonts (1 # 2) (-1))
      as (img & Himg & Hneg & _).
    exists img. split; [exact Himg | apply Hneg; lia].
  - destruct (frames_outside_the_phases no_fonts (9 # 10) 3)
      as (img & Himg & _ & Hbig).
    exists img. split; [exact Himg | apply Hbig; lia].
Defined.

(** X3. Layers stack: whatever the progress, the frame of a phase >= 1
    draws everything the frame of phase 0 draws and then more on top, and
    the frame of a phase >= 2 starts with everything a fully typed frame
    of phase 1 (progress >= 2/3) draws. *)
Theorem later_phases_draw_on_top (env : Env) (p q : Q) (phase : Z) :
  exists img img0,
    create_chat_demo_frame env p phase = Ok img
    /\ create_chat_demo_frame env q 0 = Ok img0
    /\ (1 <= phase -> exists more, drawn img = drawn img0 ++ more)
    /\ (2 <= phase -> (2 # 3 <= q)%Q ->
        exists img1 more,
          create_chat_demo_frame env q 1 = Ok img1
          /\ drawn img = drawn img1 ++ more).
Proof.
  exists (Canvas DARKER_BG (display_list env p phase)),
         (Canvas DARKER_BG (display_list env q 0)).
  split; [apply create_chat_demo_frame_draws|].
  split; [apply create_chat_demo_frame_draws|].
  destruct (phase_flags phase) as (H0 & H1 & H2).
  split.
  - intro Hph.
    assert (G0 : (phase >=? 0) = true) by (apply H0; lia).
    exists (agent_bubble env p phase ++ preview env p phase).
    unfold drawn, display_list, user_bubble. rewrite G0.
    cbn [Z.geb Z.compare agent_bubble preview].
    rewrite app_nil_r, <- !app_assoc. reflexivity.
  - intros Hph Hq.
    assert (G0 : (phase >=? 0) = true) by (apply H0; lia).
    assert (G1 : (phase >=? 1) = true) by (apply H1; lia).
    assert (E1 : (phase =? 1) = false) by (apply Z.eqb_neq; lia).
    exists (Canvas DARKER_BG (display_list env q 1)), (preview env p phase).
    split; [apply create_chat_demo_frame_draws|].
    assert (Hfull : visible_text q 1 = agent_response).
    { unfold visible_text. cbn [Z.eqb Pos.eqb]. cbv zeta.
      rewrite (chars_to_show_saturated q Hq), Z.ltb_irrefl.
      apply slice_to_all. lia. }
    unfold drawn, display_list, user_bubble, agent_bubble.
    rewrite G0, G1. cbn [Z.geb Z.compare Pos.compare Pos.compare_cont].
    rewrite Hfull. unfold visible_text at 1. rewrite E1.
    replace (preview env q 1) with (@nil DrawOp) by reflexivity.
    rewrite app_nil_r, <- !app_assoc. reflexivity.
Qed.

End FrameLayers.

(** ** More on the typing effect *)

Module TypedReveal.




(** The characters of the lines of a text are its characters other than
    the line breaks. *)
Lemma split_lines_acc_keeps (s cur : pystr) (c : N) :
  c <> newline -> In c cur \/ In c s ->
  In c (List.concat (split_lines_acc cur s)).
Proof.
  intro Hc. revert cur. induction s as [|a s IH]; intros cur H.
  - cbn. rewrite app_nil_r. apply in_rev. rewrite rev_involutive.
    destruct H as [H | []]. exact H.
  - cbn [split_lines_acc]. destruct (N.eqb a newline) eqn:E.
    + apply N.eqb_eq in E. subst a. cbn [List.concat].
      apply in_or_app. destruct H as [H | [H | H]].
      * left. apply in_rev. now rewrite rev_involutive.
      * congruence.
      * right. apply IH. now right.
    + apply IH. destruct H as [H | [H | H]].
      * left. now right.
      * left. now left.
      * now right.
Qed.

Lemma concat_split_lines (s : pystr) (c : N) :
  c <> newline ->
  (In c (List.concat (split_lines s)) <-> In c s).
Proof.
  intro Hc. split; intro H.
  - apply in_concat in H. destruct H as (l & Hl & Hcl).
    exact (split_lines_chars _ _ _ Hl Hcl).
  - apply split_lines_acc_keeps; [exact Hc | now right].
Qed.

Lemma caret_not_in_response : ~ In caret_glyph agent_response.
Proof. vm_compute. intuition discriminate. Qed.





End TypedReveal.

(** ** Rounding in binary64

    What the specification of the primitive floats gives about the two
    products of the typing effect. *)

Module Binary64Rounding.

Import SpecFloat FloatOps.

(** The number of binary digits of a mantissa. *)
Lemma digits2_pos_lower (p : positive) :
  2 ^ (Zpos (digits2_pos p) - 1) <= Zpos p.
Proof.
  induction p as [p IH | p IH |]; cbn [digits2_pos].
  - rewrite Pos2Z.inj_succ.
    replace (Z.succ (Zpos (digits2_pos p)) - 1)
      with (Z.succ (Zpos (digits2_pos p) - 1)) by lia.
    rewrite Z.pow_succ_r by lia. lia.
  - rewrite Pos2Z.inj_succ.
    replace (Z.succ (Zpos (digits2_pos p)) - 1)
      with (Z.succ (Zpos (digits2_pos p) - 1)) by lia.
    rewrite Z.pow_succ_r by lia. lia.
  - reflexivity.
Qed.

Lemma digits2_pos_upper (p : positive) : Zpos p < 2 ^ Zpos (digits2_pos p).
Proof.
  induction p as [p IH | p IH |]; cbn [digits2_pos].
  - rewrite Pos2Z.inj_succ, Z.pow_succ_r by lia. lia.
  - rewrite Pos2Z.inj_succ, Z.pow_succ_r by lia. lia.
  - reflexivity.
Qed.

Lemma Zdigits2_le (m k : Z) : 0 <= k -> 0 <= m < 2 ^ k -> Zdigits2 m <= k.
Proof.
  intros Hk [H0 H1]. destruct m as [|p|p]; cbn [Zdigits2]; [exact Hk| |lia].
  pose proof (digits2_pos_lower p) as Hl.
  assert (H : 2 ^ (Zpos (digits2_pos p) - 1) < 2 ^ k) by lia.
  apply Z.pow_lt_mono_r_iff in H; lia.
Qed.

(** A right shift by [n] bits divides the mantissa by [2 ^ n]; the round
    bit is the last bit shifted out. *)
Lemma shr_1_m (mrs : shr_record) :
  0 <= shr_m mrs -> shr_m (shr_1 mrs) = shr_m mrs / 2.
Proof.
  destruct mrs as [m r s]. cbn [shr_m]. intro H.
  destruct m as [|[p|p|]|p]; cbn [shr_1 shr_m]; try reflexivity; try lia.
  - apply Z.div_unique with 1; lia.
  - apply Z.div_unique with 0; lia.
Qed.

Lemma shr_1_r (mrs : shr_record) :
  0 <= shr_m mrs -> shr_r (shr_1 mrs) = Z.odd (shr_m mrs).
Proof.
  destruct mrs as [m r s]. cbn [shr_m]. intro H.
  destruct m as [|[p|p|]|p]; cbn [shr_1 shr_r]; try reflexivity; lia.
Qed.

Lemma pow2_xI (n : positive) : 2 ^ Zpos n~1 = 2 * 2 ^ Zpos n * 2 ^ Zpos n.
Proof.
  rewrite (Pos2Z.inj_xI n).
  replace (2 * Zpos n + 1) with (1 + Zpos n + Zpos n) by lia.
  rewrite !Z.pow_add_r by lia. reflexivity.
Qed.

Lemma pow2_xO (n : positive) : 2 ^ Zpos n~0 = 2 ^ Zpos n * 2 ^ Zpos n.
Proof.
  rewrite (Pos2Z.inj_xO n).
  replace (2 * Zpos n) with (Zpos n + Zpos n) by lia.
  rewrite Z.pow_add_r by lia. reflexivity.
Qed.

Lemma pow2_pos (n : Z) : 0 <= n -> 0 < 2 ^ n.
Proof. intro H. apply Z.pow_pos_nonneg; lia. Qed.

Lemma iter_shr_m (n : positive) :
  forall mrs, 0 <= shr_m mrs ->
  shr_m (iter_pos shr_1 n mrs) = shr_m mrs / 2 ^ Zpos n.
Proof.
  induction n as [n IH | n IH |]; intros mrs H; cbn [iter_pos].
  - pose proof (pow2_pos (Zpos n) ltac:(lia)) as Hn.
    assert (H1 : 0 <= shr_m (shr_1 mrs)).
    { rewrite shr_1_m by exact H. apply Z.div_pos; lia. }
    assert (H2 : 0 <= shr_m (iter_pos shr_1 n (shr_1 mrs))).
    { rewrite IH by exact H1. apply Z.div_pos; lia. }
    rewrite IH by exact H2. rewrite IH by exact H1.
    rewrite shr_1_m by exact H.
    rewrite !Z.div_div by lia. f_equal. rewrite pow2_xI. ring.
  - pose proof (pow2_pos (Zpos n) ltac:(lia)) as Hn.
    assert (H1 : 0 <= shr_m (iter_pos shr_1 n mrs)).
    { rewrite IH by exact H. apply Z.div_pos; lia. }
    rewrite IH by exact H1. rewrite IH by exact H.
    rewrite Z.div_div by lia. f_equal. rewrite pow2_xO. ring.
  - rewrite shr_1_m by exact H. reflexivity.
Qed.

Lemma iter_shr_r (n : positive) :
  forall mrs, 0 <= shr_m mrs ->
  shr_r (iter_pos shr_1 n mrs) = Z.odd (shr_m mrs / 2 ^ (Zpos n - 1)).
Proof.
  induction n as [n IH | n IH |]; intros mrs H; cbn [iter_pos].
  - pose proof (pow2_pos (Zpos n) ltac:(lia)) as Hn.
    pose proof (pow2_pos (Zpos n - 1) ltac:(lia)) as Hn'.
    assert (H1 : 0 <= shr_m (shr_1 mrs)).
    { rewrite shr_1_m by exact H. apply Z.div_pos; lia. }
    assert (H2 : 0 <= shr_m (iter_pos shr_1 n (shr_1 mrs))).
    { rewrite iter_shr_m by exact H1. apply Z.div_pos; lia. }
    rewrite IH by exact H2. rewrite iter_shr_m by exact H1.
    rewrite shr_1_m by exact H.
    rewrite !Z.div_div by lia.
    replace (Zpos n~1 - 1) with (1 + Zpos n + (Zpos n - 1)) by lia.
    rewrite !Z.pow_add_r by lia. do 2 f_equal. ring.
  - pose proof (pow2_pos (Zpos n) ltac:(lia)) as Hn.
    pose proof (pow2_pos (Zpos n - 1) ltac:(lia)) as Hn'.
    assert (H1 : 0 <= shr_m (iter_pos shr_1 n mrs)).
    { rewrite iter_shr_m by exact H. apply Z.div_pos; lia. }
    rewrite IH by exact H1. rewrite iter_shr_m by exact H.
    rewrite Z.div_div by lia.
    replace (Zpos n~0 - 1) with (Zpos n + (Zpos n - 1)) by lia.
    rewrite Z.pow_add_r by lia. reflexivity.
  - rewrite shr_1_r by exact H. cbn. now rewrite Z.div_1_r.
Qed.

(** The exponent of the result, in binary64. *)
Lemma fexp_eq (e : Z) : fexp prec emax e = Z.max (e - 53) (-1074).
Proof. reflexivity. Qed.

Lemma shr_fexp_exact (m e : Z) :
  0 <= m ->
  let n := Z.max 0 (fexp prec emax (Zdigits2 m + e) - e) in
  exists mrs,
    shr_fexp prec emax m e loc_Exact = (mrs, e + n)
    /\ shr_m mrs = m / 2 ^ n
    /\ (0 < n -> shr_r mrs = Z.odd (m / 2 ^ (n - 1)))
    /\ (n = 0 -> shr_r mrs = false).
Proof.
  intros Hm n. subst n. unfold shr_fexp, shr. cbn [shr_record_of_loc].
  destruct (fexp prec emax (Zdigits2 m + e) - e) as [|p|p].
  - exists (Build_shr_record m false false). cbn [Z.max Z.compare shr_m shr_r].
    rewrite Z.add_0_r, Z.div_1_r.
    split; [reflexivity|]. split; [reflexivity|]. split; [lia | reflexivity].
  - exists (iter_pos shr_1 p (Build_shr_record m false false)).
    replace (Z.max 0 (Zpos p)) with (Zpos p) by lia.
    split; [reflexivity|]. split; [now apply iter_shr_m|].
    split; [intros _; now apply iter_shr_r | lia].
  - exists (Build_shr_record m false false).
    replace (Z.max 0 (Zneg p)) with 0 by lia. cbn [shr_m shr_r].
    rewrite Z.add_0_r, Z.div_1_r.
    split; [reflexivity|]. split; [reflexivity|]. split; [lia | reflexivity].
Qed.

(** Rounding to nearest adds at most one to the shifted mantissa, and
    nothing when the round bit is clear. *)
Lemma round_nearest_even_bounds (mrs : shr_record) :
  let m' := round_nearest_even (shr_m mrs) (loc_of_shr_record mrs) in
  shr_m mrs <= m' <= shr_m mrs + 1 /\ (shr_r mrs = false -> m' = shr_m mrs).
Proof.
  destruct mrs as [m r s]. cbn [shr_m shr_r].
  destruct r, s; cbn [loc_of_shr_record round_nearest_even];
    try destruct (Z.even m); split; try lia; try reflexivity;
    intro; discriminate.
Qed.

(** Rounding a product that stays half a unit in the last place below the
    integer [B] gives a float below [B]. *)
Lemma binary_round_aux_below (B : Z) (s : bool) (mx : positive) (ex : Z) :
  0 < B <= 2 ^ 53 -> -1127 <= ex <= 0 -> Zpos mx < 2 ^ 106 ->
  Zpos mx + 2 ^ 52 < B * 2 ^ (- ex) ->
  exists m e,
    0 <= m < B * 2 ^ (- e) /\ e <= 0
    /\ binary_round_aux prec emax s (Zpos mx) ex loc_Exact
       = match m with
         | Z0 => S754_zero s
         | Zpos p => S754_finite s p e
         | Zneg _ => S754_nan
         end.
Proof.
  intros HB Hex Hd Hmx. unfold binary_round_aux.
  destruct (shr_fexp_exact (Zpos mx) ex ltac:(lia))
    as (mrs1 & E1 & Hm1 & Hr1 & Hr0).
  rewrite E1. clear E1.
  pose proof (Zdigits2_le (Zpos mx) 106 ltac:(lia) ltac:(lia)) as HD.
  assert (HD' : Zdigits2 (Zpos mx) <= 53 - ex).
  { apply Zdigits2_le; [lia|]. split; [lia|].
    apply Z.lt_le_trans with (B * 2 ^ (- ex)); [lia|].
    replace (53 - ex) with (53 + - ex) by lia.
    rewrite Z.pow_add_r by lia.
    apply Z.mul_le_mono_nonneg_r; [apply Z.lt_le_incl, pow2_pos|]; lia. }
  rewrite fexp_eq in Hm1, Hr1, Hr0 |- *.
  set (n1 := Z.max 0 (Z.max (Zdigits2 (Zpos mx) + ex - 53) (-1074) - ex)) in *.
  assert (Hn1 : 0 <= n1 <= 53) by lia.
  assert (He1 : ex + n1 <= 0) by lia.
  set (e1 := ex + n1) in *.
  assert (Hpow : 2 ^ (- ex) = 2 ^ (- e1) * 2 ^ n1).
  { rewrite <- Z.pow_add_r by lia. f_equal. lia. }
  pose proof (pow2_pos (- e1) ltac:(lia)) as Hp1.
  pose proof (pow2_pos n1 ltac:(lia)) as Hpn1.
  pose proof (round_nearest_even_bounds mrs1) as Hrnd. cbv zeta in Hrnd.
  set (m1 := round_nearest_even (shr_m mrs1) (loc_of_shr_record mrs1)) in *.
  assert (Hm1' : 0 <= m1 < B * 2 ^ (- e1)).
  { destruct Hrnd as [[Hlo Hhi] Hexact]. split.
    - rewrite Hm1 in Hlo. pose proof (Z.div_pos (Zpos mx) (2 ^ n1)). lia.
    - destruct (Z.eq_dec n1 0) as [E0 | E0].
      + rewrite (Hexact (Hr0 E0)), Hm1, E0, Z.div_1_r.
        rewrite E0 in Hpow. lia.
      + assert (Hq : Zpos mx / 2 ^ (n1 - 1) < 2 * (B * 2 ^ (- e1)) - 1).
        { apply Z.div_lt_upper_bound; [apply pow2_pos; lia|].
          assert (H2 : 2 ^ n1 = 2 * 2 ^ (n1 - 1)).
          { rewrite <- Z.pow_succ_r by lia. f_equal. lia. }
          assert (H52 : 2 ^ (n1 - 1) <= 2 ^ 52)
            by (apply Z.pow_le_mono_r; lia).
          rewrite Hpow, H2 in Hmx. lia. }
        assert (Hhalf : shr_m mrs1 = Zpos mx / 2 ^ (n1 - 1) / 2).
        { rewrite Hm1, Z.div_div by (try apply pow2_pos; lia).
          f_equal. rewrite Z.mul_comm, <- Z.pow_succ_r by lia. f_equal. lia. }
        specialize (Hr1 ltac:(lia)).
        set (q := Zpos mx / 2 ^ (n1 - 1)) in *.
        destruct (shr_r mrs1) eqn:Er.
        * symmetry in Hr1. apply Z.odd_spec in Hr1. destruct Hr1 as [k Hk].
          rewrite Hk in Hhalf, Hq.
          assert (shr_m mrs1 = k) by (Z.div_mod_to_equations; lia).
          lia.
        * rewrite (Hexact eq_refl), Hhalf. Z.div_mod_to_equations. lia. }
  destruct (shr_fexp_exact m1 e1 ltac:(lia)) as (mrs2 & E2 & Hm2 & _).
  rewrite E2. clear E2.
  assert (HD2 : Zdigits2 m1 <= 53 - e1).
  { apply Zdigits2_le; [lia|]. split; [lia|].
    apply Z.lt_le_trans with (B * 2 ^ (- e1)); [lia|].
    replace (53 - e1) with (53 + - e1) by lia.
    rewrite Z.pow_add_r by lia.
    apply Z.mul_le_mono_nonneg_r; lia. }
  rewrite fexp_eq in Hm2 |- *.
  set (n2 := Z.max 0 (Z.max (Zdigits2 m1 + e1 - 53) (-1074) - e1)) in *.
  assert (Hn2 : 0 <= n2) by lia.
  assert (He2 : e1 + n2 <= 0) by lia.
  exists (shr_m mrs2), (e1 + n2).
  pose proof (pow2_pos n2 ltac:(lia)) as Hpn2.
  split; [|split; [exact He2|]].
  - rewrite Hm2. split; [apply Z.div_pos; lia|].
    apply Z.div_lt_upper_bound; [lia|].
    replace (2 ^ n2 * (B * 2 ^ (- (e1 + n2))))
      with (B * (2 ^ (- (e1 + n2)) * 2 ^ n2)) by ring.
    rewrite <- Z.pow_add_r by lia.
    replace (- (e1 + n2) + n2) with (- e1) by lia. lia.
  - destruct (shr_m mrs2); try reflexivity.
    replace (e1 + n2 <=? emax - prec) with true; [reflexivity|].
    symmetry. apply Z.leb_le. change (emax - prec) with 971. lia.
Qed.

Import PrimFloat FloatAxioms.

(** Rounding keeps the sign. *)
Lemma binary_round_aux_sign (s : bool) (mx ex : Z) (lx : location) :
  match binary_round_aux prec emax s mx ex lx with
  | S754_zero s' | S754_finite s' _ _ | S754_infinity s' => s' = s
  | S754_nan => True
  end.
Proof.
  unfold binary_round_aux.
  destruct (shr_fexp prec emax mx ex lx) as [mrs' e'].
  destruct (shr_fexp prec emax _ e' loc_Exact) as [mrs'' e''].
  destruct (shr_m mrs''); [reflexivity | | exact I].
  destruct (e'' <=? emax - prec); reflexivity.
Qed.

(** [0 <= p] holds of the floats that are not negative, NaN apart. *)
Lemma leb_zero_not_negative (p : float) :
  (0 <=? p)%float = true ->
  Binary64.not_negative (Prim2SF p) /\ Prim2SF p <> S754_nan.
Proof.
  rewrite leb_spec. change (Prim2SF 0) with (S754_zero false).
  destruct (Prim2SF p) as [s | s | | s m e]; cbn; try destruct s;
    intro H; try discriminate; split; try exact I; try reflexivity;
    discriminate.
Qed.

Lemma mul_not_negative (p c : float) :
  Binary64.not_negative (Prim2SF p) -> Binary64.not_negative (Prim2SF c) ->
  Binary64.not_negative (Prim2SF (p * c)).
Proof.
  rewrite mul_spec. unfold SF64mul, SFmul.
  destruct (Prim2SF p) as [s | s | | s m e];
    destruct (Prim2SF c) as [s' | s' | | s' m' e']; cbn [Binary64.not_negative];
    intros Hp Hc; subst; try exact I; try reflexivity.
  pose proof (binary_round_aux_sign (xorb false false)
                (Zpos (m * m')) (e + e') loc_Exact) as H.
  destruct (binary_round_aux _ _ _ _ _ _); cbn [Binary64.not_negative];
    try exact H; exact I.
Qed.

(** A float below 1.0 that is not negative. *)
Lemma below_one (y : float) :
  (y <? 1)%float = true -> Binary64.not_negative (Prim2SF y) ->
  (exists s, Prim2SF y = S754_zero s)
  \/ exists m e, Prim2SF y = S754_finite false m e
       /\ -1074 <= e <= -52 /\ Zpos m < 2 ^ 53 /\ Zpos m < 2 ^ (- e).
Proof.
  rewrite ltb_spec. pose proof (Prim2SF_valid y) as Hv.
  change (Prim2SF 1) with (S754_finite false 4503599627370496 (-52)).
  destruct (Prim2SF y) as [s | s | | s m e]; cbn [Binary64.not_negative].
  - intros _ _. left. now exists s.
  - intros H ->. discriminate.
  - discriminate.
  - intros H ->. right. exists m, e. split; [reflexivity|].
    cbn [valid_binary] in Hv. unfold bounded, canonical_mantissa in Hv.
    apply andb_true_iff in Hv. destruct Hv as [Hc _].
    apply Z.eqb_eq in Hc. rewrite fexp_eq in Hc.
    pose proof (digits2_pos_upper m) as Hu.
    assert (Hm : Zpos m < 2 ^ 53).
    { apply Z.lt_le_trans with (2 ^ Zpos (digits2_pos m)); [exact Hu|].
      apply Z.pow_le_mono_r; lia. }
    unfold SFltb, SFcompare in H.
    destruct (e ?= -52) eqn:Ee; try discriminate.
    + apply Z.compare_eq in Ee. subst e.
      rewrite Pos.compare_cont_spec in H.
      destruct (Pos.compare_spec m 4503599627370496) as [Em | Em | Em];
        try discriminate H.
      apply Pos2Z.pos_lt_pos in Em. clear H.
      split; [lia|]. split; [exact Hm|].
      change (2 ^ (- -52)) with 4503599627370496. exact Em.
    + rewrite Z.compare_lt_iff in Ee.
      split; [lia|]. split; [exact Hm|].
      apply Z.lt_le_trans with (2 ^ 53); [exact Hm|].
      apply Z.pow_le_mono_r; lia.
Qed.

(** [int] of a finite float below the integer [B]. *)
Lemma int_below (B : Z) (x : float) (m e : Z) :
  0 <= m < B * 2 ^ (- e) -> e <= 0 ->
  Prim2SF x = match m with
              | Z0 => S754_zero false
              | Zpos p => S754_finite false p e
              | Zneg _ => S754_nan
              end ->
  0 <= Binary64.int x < B /\ Binary64.converts x = true.
Proof.
  intros [H0 H1] He Hx. unfold Binary64.int, Binary64.converts. rewrite Hx.
  destruct m as [|p|p]; [split; [lia | reflexivity] | | lia].
  split; [|reflexivity].
  destruct (0 <=? e) eqn:E.
  - apply Z.leb_le in E. assert (e = 0) by lia. subst e.
    rewrite Z.shiftl_0_r. change (2 ^ (- 0)) with 1 in H1. lia.
  - rewrite Z.shiftr_div_pow2 by lia.
    pose proof (pow2_pos (- e) ltac:(lia)).
    split; [apply Z.div_pos; lia|].
    apply Z.div_lt_upper_bound; lia.
Qed.

(** The character count on a progress that is not negative: the float
    passed to [int] is finite, and the count is below the length of the
    response exactly while the rounded [progress * 1.5] is below 1.0. *)
Lemma chars_to_show_range (progress : float) :
  (0 <=? progress)%float = true ->
  Binary64.converts
    (Binary64.of_int (len agent_response)
     * Binary64.min 1 (progress * 1.5))%float = true
  /\ if (progress * 1.5 <? 1)%float
     then 0 <= Binary64.chars_to_show progress < len agent_response
     else Binary64.chars_to_show progress = len agent_response.
Proof.
  intro Hp. apply leb_zero_not_negative in Hp. destruct Hp as [Hp _].
  pose proof (mul_not_negative progress 1.5 Hp eq_refl) as Hy.
  unfold Binary64.chars_to_show, Binary64.min.
  change (len agent_response) with 238.
  set (y := (progress * 1.5)%float) in *. clearbody y.
  destruct (y <? 1)%float eqn:E; [|split; reflexivity].
  assert (HL : Prim2SF (Binary64.of_int 238)
               = S754_finite false 8373880557142016 (-45)) by reflexivity.
  destruct (below_one y E Hy) as [[s Hs] | (m & e & Hs & He & Hm & Hlt)].
  - assert (Hx : Prim2SF (Binary64.of_int 238 * y) = S754_zero s).
    { rewrite mul_spec, HL, Hs. reflexivity. }
    unfold Binary64.int, Binary64.converts. rewrite Hx.
    split; [reflexivity | lia].
  - assert (Hx : Prim2SF (Binary64.of_int 238 * y)
                 = binary_round_aux prec emax false
                     (Zpos (8373880557142016 * m)) (-45 + e) loc_Exact).
    { rewrite mul_spec, HL, Hs. reflexivity. }
    assert (Hpow : 2 ^ (- (-45 + e)) = 2 ^ 45 * 2 ^ (- e)).
    { rewrite <- Z.pow_add_r by lia. f_equal. lia. }
    destruct (binary_round_aux_below 238 false (8373880557142016 * m)
                (-45 + e))
      as (m2 & e2 & Hm2 & He2 & Hr).
    + split; [lia|]. apply Z.leb_le. reflexivity.
    + lia.
    + rewrite Pos2Z.inj_mul.
      change (2 ^ 106) with (2 ^ 53 * 2 ^ 53).
      apply Z.mul_lt_mono_nonneg; [lia | | lia | exact Hm].
      apply Z.ltb_lt. reflexivity.
    + rewrite Hpow, Pos2Z.inj_mul.
      change (Zpos 8373880557142016) with (238 * 2 ^ 45).
      change (2 ^ 52) with 4503599627370496.
      change (2 ^ 45) with 35184372088832.
      pose proof (pow2_pos (- e) ltac:(lia)). lia.
    + rewrite <- Hx in Hr.
      destruct (int_below 238 (Binary64.of_int 238 * y) m2 e2 Hm2 He2 Hr)
        as [Hi Hc].
      split; [exact Hc | exact Hi].
Qed.

End Binary64Rounding.

(** ** The typing effect in binary64 *)

Module Binary64Reveal.

Import PrimFloat TypedReveal.

(** The display list of the rational model is an instance of [layers]. *)
Lemma display_list_layers (env : Env) (progress : Q) (phase : Z) :
  display_list env progress phase
  = layers env phase (visible_text progress phase)
      (visible_todos progress phase) ((phase =? 2) && Qltb (1 # 2) progress).
Proof. reflexivity. Qed.

(** [create_chat_demo_frame] on a binary64 progress draws the layers of
    the text, the items and the caption computed in binary64. *)
Lemma create_chat_demo_frame_layers (env : Env) (progress : float)
    (phase : Z) :
  Binary64.create_chat_demo_frame env progress phase
  = Ok (Canvas DARKER_BG
          (layers env phase (Binary64.visible_text progress phase)
             (Binary64.visible_todos progress phase)
             (Binary64.url_displayed progress phase))).
Proof.
  unfold Binary64.create_chat_demo_frame, on_canvas.
  rewrite !get_font_resolve.
  unfold layers, chrome, user_bubble.
  cbv [bind emit lift rounded_rectangle rectangle text ret when].
  destruct (phase >=? 0); cbv beta iota;
    destruct (phase >=? 1); cbv beta iota.
  all: try match goal with
    | |- context [draw_for (split_lines ?v) ?body ?y ?ops] =>
        destruct (draw_lines_run (resolve_font env 24 false)
                    (split_lines v) y ops) as [y1 Hy1];
        cbv [bind emit text ret] in Hy1; rewrite Hy1; clear Hy1
    end.
  all: destruct (phase >=? 2); cbv beta iota.
  all: try match goal with
    | |- context [draw_for (Binary64.visible_todos ?p ?ph) ?body ?y ?ops] =>
        destruct (draw_todos_run (resolve_font env 20 false)
                    (Binary64.visible_todos p ph) y ops) as [y2 Hy2];
        cbv [bind emit text ret] in Hy2; cbv beta iota zeta in Hy2;
        rewrite Hy2; clear Hy2
    end.
  all: try destruct (Binary64.url_displayed progress phase).
  all: cbn [app]; rewrite ?app_nil_r, <- ?app_assoc; cbn [app];
    reflexivity.
Qed.

(** The text lines of the agent bubble are the only strings drawn at its
    text abscissa. *)
Lemma agent_text_of_layers (env : Env) (phase : Z) (shown : pystr)
    (items : list (pystr * bool)) (url : bool) :
  texts_at (agent_bubble_left + 30) (layers env phase shown items url)
  = if phase >=? 1 then split_lines shown else [].
Proof.
  unfold layers.
  destruct (phase >=? 1), (phase >=? 2), url;
    rewrite !texts_at_app, ?texts_at_text_lines, ?texts_at_todo_items;
    repeat match goal with
      | |- context [texts_at ?x ?l] =>
          replace (texts_at x l) with (@nil pystr)
            by (unfold user_bubble; destruct (phase >=? 0); reflexivity)
      end;
    cbn [app]; rewrite ?app_nil_r; reflexivity.
Qed.

(** C4 (as amended). While [phase == 1] (progress not negative), the agent
    text drawn is the prefix of the response of
    [int(len(full_text) * min(1.0, progress * 1.5))] characters, both
    products rounded to binary64 as the code computes them; the float
    converted is finite and the count lies between 0 and the full length.
    The prefix is followed by the caret glyph while the count is below the
    full length; in every phase >= 2 the full text is drawn and no caret. *)
Theorem typed_reveal_in_binary64 (env : Env) (progress : float)
    (phase : Z) :
  (0 <=? progress)%float = true ->
  exists img,
    Binary64.create_chat_demo_frame env progress phase = Ok img
    /\ (phase = 1 ->
        let x := (Binary64.of_int (len agent_response)
                  * Binary64.min 1 (progress * 1.5))%float in
        let n := Binary64.int x in
        let shown := firstn (Z.to_nat n) agent_response in
        Binary64.converts x = true
        /\ 0 <= n <= len agent_response
        /\ len shown = n
        /\ agent_text_drawn img
           = split_lines
               (shown ++ if n <? len agent_response then caret else []))
    /\ (2 <= phase ->
        agent_text_drawn img = split_lines agent_response
        /\ existsb (N.eqb caret_glyph) (List.concat (agent_text_drawn img))
           = false).
Proof.
  intro Hp.
  eexists. split; [apply create_chat_demo_frame_layers|].
  unfold agent_text_drawn, drawn. rewrite agent_text_of_layers.
  split.
  - intros ->. cbn [Z.geb Z.compare]. cbv zeta.
    destruct (Binary64Rounding.chars_to_show_range progress Hp)
      as [Hconv Hrange].
    split; [exact Hconv|].
    unfold Binary64.visible_text. cbn [Z.eqb Pos.eqb]. cbv zeta.
    change (Binary64.int
              (Binary64.of_int (len agent_response)
               * Binary64.min 1 (progress * 1.5)))
      with (Binary64.chars_to_show progress).
    assert (Hn : 0 <= Binary64.chars_to_show progress
                 <= len agent_response).
    { pose proof (len_nonneg agent_response).
      destruct (progress * 1.5 <? 1)%float; lia. }
    clear Hrange. set (n := Binary64.chars_to_show progress) in *.
    clearbody n.
    split; [exact Hn|]. split.
    + unfold len at 1. rewrite length_firstn. unfold len in Hn. lia.
    + unfold slice_to.
      replace (n <? 0) with false by (symmetry; apply Z.ltb_ge; lia).
      destruct (n <? len agent_response);
        [reflexivity | now rewrite app_nil_r].
  - intro H2.
    assert (E1 : (phase >=? 1) = true).
    { rewrite Z.geb_leb. apply Z.leb_le. lia. }
    assert (E2 : (phase =? 1) = false) by (apply Z.eqb_neq; lia).
    rewrite E1. unfold Binary64.visible_text. rewrite E2.
    split; [reflexivity | now vm_compute].
Qed.

(** C4, at frame 150 of [main]: phase 1, progress 60/180 in binary64. *)
Lemma typed_reveal_in_binary64_witness :
  (0 <=? Binary64.truediv 60 180)%float = true
  /\ exists img,
       Binary64.create_chat_demo_frame no_fonts (Binary64.truediv 60 180) 1
       = Ok img
       /\ agent_text_drawn img
          = split_lines (firstn 119 agent_response ++ caret).
Proof.
  split; [reflexivity|].
  destruct (typed_reveal_in_binary64 no_fonts (Binary64.truediv 60 180) 1)
    as (img & Himg & H1 & _); [reflexivity|].
  exists img. split; [exact Himg|].
  destruct (H1 eq_refl) as (_ & _ & _ & Ht). exact Ht.
Defined.

(** C4, the claim as stated fails: the count is not the floor of the exact
    product, whether the progress is read as the exact value of the float
    passed or as the quotient it stands for. At frame 210 of [main] the
    progress is the float 120/180, which lies below 2/3; the floor of
    [238 * progress * 1.5] at its exact value is 237, and the claim has 237
    characters and the caret drawn, where the code rounds [progress * 1.5]
    to 1.0 and draws all 238 characters and no caret. At the float 3/7
    the floor of [238 * 3/7 * 1.5] is 153, and the code draws 152
    characters. *)
Lemma typed_reveal_is_not_the_exact_floor :
  (exists progress n img,
     progress = Binary64.truediv 120 180
     /\ (0 <=? progress)%float = true
     /\ (Binary64.to_Q progress < 2 # 3)%Q
     /\ n = Qfloor (inject_Z (len agent_response)
                    * Qmin 1 (Binary64.to_Q progress * (3 # 2)))
     /\ n = 237
     /\ Binary64.create_chat_demo_frame no_fonts progress 1 = Ok img
     /\ agent_text_drawn img = split_lines agent_response
     /\ agent_text_drawn img
        <> split_lines
             (firstn (Z.to_nat n) agent_response
              ++ if n <? len agent_response then caret else []))
  /\ (exists n img,
        n = Qfloor (inject_Z (len agent_response)
                    * Qmin 1 ((3 # 7) * (3 # 2)))
        /\ n = 153
        /\ Binary64.create_chat_demo_frame no_fonts (Binary64.truediv 3 7) 1
           = Ok img
        /\ agent_text_drawn img
           = split_lines (firstn 152 agent_response ++ caret)
        /\ agent_text_drawn img
           <> split_lines
                (firstn (Z.to_nat n) agent_response
                 ++ if n <? len agent_response then caret else [])).
Proof.
  split.
  - exists (Binary64.truediv 120 180), 237.
    eexists. split; [reflexivity|]. split; [reflexivity|].
    split; [reflexivity|]. split; [now vm_compute|]. split; [reflexivity|].
    split; [apply create_chat_demo_frame_layers|].
    unfold agent_text_drawn, drawn. rewrite agent_text_of_layers.
    split; [now vm_compute|].
    vm_compute. discriminate.
  - exists 153. eexists.
    split; [now vm_compute|]. split; [reflexivity|].
    split; [apply create_chat_demo_frame_layers|].
    unfold agent_text_drawn, drawn. rewrite agent_text_of_layers.
    split; [now vm_compute|].
    vm_compute. discriminate.
Qed.

(** X4. During phase 1 (progress not negative) the caret is drawn exactly
    while the binary64 product [progress * 1.5] is below 1.0, and once it
    is not, the whole response is drawn. The threshold is not 2/3: the
    float 120/180 lies below 2/3 and its product with 1.5 rounds to 1.0, so
    of the 180 frames that [main] generates for phase 1 the steps 0 to 119
    carry the caret and step 120 is the first without. *)
Theorem caret_while_rate_below_one (env : Env) (progress : float) :
  (0 <=? progress)%float = true ->
  (exists img,
     Binary64.create_chat_demo_frame env progress 1 = Ok img
     /\ existsb (N.eqb caret_glyph) (List.concat (agent_text_drawn img))
        = (progress * 1.5 <? 1)%float
     /\ ((progress * 1.5 <? 1)%float = false ->
         agent_text_drawn img = split_lines agent_response))
  /\ (Binary64.to_Q (Binary64.truediv 120 180) < 2 # 3)%Q
  /\ filter (fun i => (Binary64.truediv i 180 * 1.5 <? 1)%float) (range 180)
     = range 120.
Proof.
  intro Hp. split; [|split; [reflexivity | now vm_compute]].
  eexists. split; [apply create_chat_demo_frame_layers|].
  unfold agent_text_drawn, drawn. rewrite agent_text_of_layers.
  change (1 >=? 1) with true. cbv iota.
  destruct (Binary64Rounding.chars_to_show_range progress Hp)
    as [_ Hrange].
  unfold Binary64.visible_text. cbn [Z.eqb Pos.eqb]. cbv zeta.
  assert (Hnl : caret_glyph <> newline) by discriminate.
  destruct (progress * 1.5 <? 1)%float.
  - split; [|discriminate].
    replace (Binary64.chars_to_show progress <? len agent_response)
      with true by (symmetry; apply Z.ltb_lt; lia).
    apply existsb_exists. exists caret_glyph. split; [|apply N.eqb_refl].
    apply (proj2 (concat_split_lines _ _ Hnl)).
    apply in_or_app. right. now left.
  - rewrite Hrange, Z.ltb_irrefl.
    rewrite slice_to_all by lia.
    split; [now vm_compute | reflexivity].
Qed.

(** X4, at frame 209 of [main], the last with the caret. *)
Lemma caret_while_rate_below_one_witness :
  (0 <=? Binary64.truediv 119 180)%float = true
  /\ exists img,
       Binary64.create_chat_demo_frame no_fonts (Binary64.truediv 119 180) 1
       = Ok img
       /\ existsb (N.eqb caret_glyph) (List.concat (agent_text_drawn img))
          = true.
Proof.
  split; [reflexivity|].
  destruct (caret_while_rate_below_one no_fonts (Binary64.truediv 119 180))
    as ((img & Himg & Hcaret & _) & _); [reflexivity|].
  exists img. split; [exact Himg|]. rewrite Hcaret. reflexivity.
Defined.

End Binary64Reveal.

(** ** The layout of the text lines *)

Module FrameLayout.

Lemma text_ys_app (x : Z) (a b : list DrawOp) :
  text_ys x (a ++ b) = text_ys x a ++ text_ys x b.
Proof. apply flat_map_app. Qed.

Lemma split_lines_acc_length (s cur : pystr) :
  length (split_lines_acc cur s) = S (count_occ N.eq_dec s newline).
Proof.
  revert cur. induction s as [|a s IH]; intro cur; [reflexivity|].
  cbn [split_lines_acc count_occ].
  destruct (N.eq_dec a newline) as [-> | Hne].
  - rewrite N.eqb_refl. cbn [length]. now rewrite IH.
  - replace (N.eqb a newline) with false
      by (symmetry; now apply N.eqb_neq).
    apply IH.
Qed.

Lemma count_occ_firstn (s : pystr) (n : nat) (c : N) :
  (count_occ N.eq_dec (firstn n s) c <= count_occ N.eq_dec s c)%nat.
Proof.
  revert n. induction s as [|a s IH]; intro n.
  - rewrite firstn_nil. apply Nat.le_refl.
  - destruct n as [|n]; cbn [firstn count_occ]; [lia|].
    specialize (IH n). destruct (N.eq_dec a c); lia.
Qed.

(** The agent text never has more lines than the response. *)
Lemma visible_text_lines (progress : Q) (phase : Z) :
  (length (split_lines (visible_text progress phase)) <= 12)%nat.
Proof.
  unfold split_lines. rewrite split_lines_acc_length.
  assert (Hfull : count_occ N.eq_dec agent_response newline = 11%nat)
    by reflexivity.
  assert (Hslice : forall k,
             (count_occ N.eq_dec (slice_to agent_response k) newline
              <= 11)%nat).
  { intro k. rewrite <- Hfull. unfold slice_to.
    destruct (k <? 0); apply count_occ_firstn. }
  unfold visible_text. destruct (phase =? 1); [|rewrite Hfull; lia].
  cbv zeta. specialize (Hslice (chars_to_show progress)).
  destruct (_ <? _); [|lia].
  rewrite count_occ_app.
  change (count_occ N.eq_dec caret newline) with 0%nat. lia.
Qed.

Section FrameLayout.

Variable env : Env.

Lemma text_ys_text_lines (lines : list pystr) (y : Z) :
  text_ys (agent_bubble_left + 30) (text_lines env lines y)
  = List.map (fun j => y + 36 * Z.of_nat j) (seq 0 (length lines)).
Proof.
  revert y. induction lines as [|l lines IH]; intro y; [reflexivity|].
  cbn [text_lines text_ys flat_map length seq List.map].
  rewrite Z.eqb_refl. cbn [app]. f_equal; [lia|].
  fold (text_ys (agent_bubble_left + 30)
          (text_lines env lines (y + 36))).
  rewrite IH, <- seq_shift, map_map.
  apply map_ext. intro j. lia.
Qed.

Lemma text_ys_todo_items (items : list (pystr * bool)) (y : Z) :
  text_ys (preview_left + 30) (todo_items env items y)
  = List.map (fun j => y + 50 * Z.of_nat j) (seq 0 (length items)).
Proof.
  revert y. induction items as [|[t d] items IH]; intro y; [reflexivity|].
  cbn [todo_items text_ys flat_map length seq List.map].
  rewrite Z.eqb_refl. cbn [app]. f_equal; [lia|].
  fold (text_ys (preview_left + 30) (todo_items env items (y + 50))).
  rewrite IH, <- seq_shift, map_map.
  apply map_ext. intro j. lia.
Qed.

Lemma text_ys_other_column (x : Z) (lines : list pystr) (y : Z) :
  x <> agent_bubble_left + 30 ->
  text_ys x (text_lines env lines y) = [].
Proof.
  intro Hx. revert y. induction lines as [|l lines IH]; intro y;
    [reflexivity|].
  cbn [text_lines text_ys flat_map].
  replace (agent_bubble_left + 30 =? x) with false
    by (symmetry; apply Z.eqb_neq; lia).
  cbn [app]. apply IH.
Qed.

Lemma text_ys_items_other_column (x : Z) (items : list (pystr * bool))
    (y : Z) :
  x <> preview_left + 30 ->
  text_ys x (todo_items env items y) = [].
Proof.
  intro Hx. revert y. induction items as [|[t d] items IH]; intro y;
    [reflexivity|].
  cbn [todo_items text_ys flat_map].
  replace (preview_left + 30 =? x) with false
    by (symmetry; apply Z.eqb_neq; lia).
  cbn [app]. apply IH.
Qed.

End FrameLayout.

(** X7. In every frame the lines of the agent text are set one below the
    other at a pitch of 36 pixels from the top of the bubble, at most 12 of
    them, so that every line starts and ends between the top and the
    bottom of the agent bubble; the todo items are set at a pitch of 50
    pixels, at most 4 of them, all above the URL caption. *)
Theorem text_stays_in_its_box (env : Env) (progress : Q) (phase : Z) :
  exists img lines items,
    create_chat_demo_frame env progress phase = Ok img
    /\ (lines <= 12)%nat
    /\ text_ys (agent_bubble_left + 30) (drawn img)
       = List.map (fun j => agent_bubble_top + 30 + 36 * Z.of_nat j)
           (seq 0 lines)
    /\ Forall (fun y => agent_bubble_top < y
                        /\ y + 36 <= agent_bubble_top + agent_bubble_height)
         (text_ys (agent_bubble_left + 30) (drawn img))
    /\ (items <= 4)%nat
    /\ text_ys (preview_left + 30) (drawn img)
       = List.map (fun j => preview_top + 70 + 50 * Z.of_nat j)
           (seq 0 items)
         ++ (if draws_text url_caption img
             then [preview_top + preview_height - 50] else [])
    /\ Forall (fun y => y + 50 <= preview_top + preview_height - 50)
         (List.map (fun j => preview_top + 70 + 50 * Z.of_nat j)
            (seq 0 items)).
Proof.
  exists (Canvas DARKER_BG (display_list env progress phase)),
         (if phase >=? 1
          then length (split_lines (visible_text progress phase))
          else 0%nat),
         (if phase >=? 2
          then length (visible_todos progress phase) else 0%nat).
  split; [apply create_chat_demo_frame_draws|].
  pose proof (visible_text_lines progress phase) as Hlines.
  assert (Hitems : (length (visible_todos progress phase) <= 4)%nat).
  { unfold visible_todos, slice_to.
    destruct (_ <? 0); rewrite length_firstn; cbn [length todos]; lia. }
  assert (Hys :
    text_ys (agent_bubble_left + 30) (display_list env progress phase)
    = List.map (fun j => agent_bubble_top + 30 + 36 * Z.of_nat j)
        (seq 0 (if phase >=? 1
                then length (split_lines (visible_text progress phase))
                else 0%nat))).
  { unfold display_list, user_bubble, agent_bubble, preview, url_display.
    rewrite !text_ys_app.
    destruct (phase >=? 0), (phase >=? 1), (phase >=? 2);
      rewrite ?text_ys_app, ?text_ys_text_lines,
        ?text_ys_items_other_column by discriminate;
      try destruct ((phase =? 2) && Qltb (1 # 2) progress);
      cbn [text_ys flat_map app chrome];
      rewrite ?app_nil_r; reflexivity. }
  split; [destruct (phase >=? 1); lia|].
  unfold drawn. split; [exact Hys|]. split.
  { rewrite Hys. apply Forall_forall. intros y Hy.
    apply in_map_iff in Hy. destruct Hy as (j & <- & Hj).
    apply in_seq in Hj.
    assert (Hj12 : (j < 12)%nat) by (destruct (phase >=? 1); lia).
    unfold agent_bubble_top, agent_bubble_height, chat_top. lia. }
  split; [destruct (phase >=? 2); lia|].
  split.
  { unfold draws_text, drawn. rewrite display_list_caption.
    unfold display_list, user_bubble, agent_bubble, preview, url_display.
    rewrite !text_ys_app.
    destruct (phase >=? 2) eqn:E2.
    - destruct (phase >=? 0), (phase >=? 1);
        rewrite ?text_ys_app, ?text_ys_todo_items,
          ?text_ys_other_column by discriminate;
        destruct ((phase =? 2) && Qltb (1 # 2) progress);
        cbn [text_ys flat_map app chrome]; reflexivity.
    - assert (Hgate : (phase =? 2) = false).
      { apply Z.eqb_neq. intros ->. discriminate. }
      rewrite Hgate. cbn [andb].
      destruct (phase >=? 0), (phase >=? 1);
        rewrite ?text_ys_app, ?text_ys_other_column by discriminate;
        cbn [text_ys flat_map app chrome seq List.map]; reflexivity. }
  apply Forall_forall. intros y Hy.
  apply in_map_iff in Hy. destruct Hy as (j & <- & Hj).
  apply in_seq in Hj.
  assert (Hj4 : (j < 4)%nat) by (destruct (phase >=? 2); lia).
  unfold preview_top, preview_height, chat_top. lia.
Qed.

End FrameLayout.

(** ** More on the loops of [main] *)

Module LoopsMore.

Import Timeline.

Lemma seq_from (a b : nat) : seq a b = List.map (Nat.add a) (seq 0 b).
Proof.
  induction a as [|a IH]; [now rewrite map_id|].
  rewrite <- seq_shift, IH, map_map. reflexivity.
Qed.

Lemma range_app (a b : Z) :
  0 <= a -> 0 <= b ->
  range (a + b) = range a ++ List.map (Z.add a) (range b).
Proof.
  intros Ha Hb. unfold range.
  replace (Z.to_nat (a + b)) with (Z.to_nat a + Z.to_nat b)%nat by lia.
  rewrite seq_app, map_app. f_equal. cbn [Nat.add].
  rewrite seq_from, !map_map.
  apply map_ext. intro j. lia.
Qed.

Section LoopsMore.

Variable env : Env.

Lemma outer_loop_any (phase_frames : list Z) :
  forall (phase start : Z) (saved : list ChatFrame),
  exists more,
    for_each (enumerate_from phase phase_frames)
      (fun '(phase, frames) =>
         for_each (range frames)
           (fun i '(frame_idx, saved) =>
              let! progress := truediv i frames in
              let! frame := create_chat_demo_frame env progress phase in
              Ok (frame_idx + 1,
                  saved ++ [{| cf_index := frame_idx; cf_phase := phase;
                               cf_progress := progress;
                               cf_image := frame |}])))
      (start, saved)
    = Ok (start + sum (List.map (Z.max 0) phase_frames), saved ++ more)
    /\ List.map cf_index more
       = List.map (Z.add start)
           (range (sum (List.map (Z.max 0) phase_frames)))
    /\ Forall (fun cf =>
                 phase <= cf_phase cf < phase + len phase_frames
                 /\ (0 <= cf_progress cf < 1)%Q
                 /\ create_chat_demo_frame env (cf_progress cf) (cf_phase cf)
                    = Ok (cf_image cf))
         more
    /\ List.map (fun cf => (cf_phase cf, cf_progress cf)) more
       = flat_map (fun '(phase, frames) =>
                     List.map
                       (fun i => (phase, (inject_Z i / inject_Z frames)%Q))
                       (range frames))
           (enumerate_from phase phase_frames).
Proof.
  unfold sum.
  induction phase_frames as [|n rest IH]; intros phase start saved.
  - exists []. cbn. rewrite app_nil_r, Z.add_0_r.
    split; [reflexivity|]. split; [reflexivity|].
    split; [constructor | reflexivity].
  - cbn [enumerate_from for_each List.map fold_right].
    assert (Htotal : 0 <= fold_right Z.add 0 (List.map (Z.max 0) rest)).
    { clear. induction rest as [|m rest IH]; cbn [List.map fold_right];
        [lia|].
      pose proof (Z.le_max_l 0 m). lia. }
    destruct (Z_lt_le_dec 0 n) as [Hpos | Hnone].
    + rewrite (Z.max_r 0 n) by lia. unfold range at 1.
      pose proof (inner_loop_saves env phase n start (Z.to_nat n) Hpos 0 saved)
        as H.
      replace (start + Z.of_nat 0) with start in H by lia.
      rewrite H. cbn [rbind]. fold (range n).
      replace (start + Z.of_nat (Z.to_nat n)) with (start + n) by lia.
      destruct (IH (phase + 1) (start + n)
                  (saved ++ List.map (chat_frame env start phase n) (range n)))
        as (more & Hrun & Hidx & Hall & Hphases).
      exists (List.map (chat_frame env start phase n) (range n) ++ more).
      rewrite Hrun. split; [|split; [|split]].
      * rewrite <- app_assoc. f_equal. f_equal. lia.
      * rewrite map_app, Hidx, map_map.
        rewrite range_app, map_app, map_map by lia.
        f_equal. apply map_ext. intro j. lia.
      * apply Forall_app. split.
        -- apply Forall_forall. intros cf Hcf.
           apply in_map_iff in Hcf. destruct Hcf as (i & <- & Hi).
           unfold range in Hi. apply in_map_iff in Hi.
           destruct Hi as (j & <- & Hj). apply in_seq in Hj.
           cbn [chat_frame cf_phase cf_progress cf_image].
           split; [unfold len; cbn [length]; lia|].
           split; [apply progress_in_range; lia|].
           apply create_chat_demo_frame_draws.
        -- eapply Forall_impl; [|exact Hall].
           intros cf (Hph & Hrest). split; [|exact Hrest].
           unfold len in *. cbn [length]. lia.
      * cbn [flat_map]. rewrite map_app, Hphases, map_map. reflexivity.
    + rewrite (Z.max_l 0 n) by lia.
      cbn [flat_map]. rewrite (range_empty n Hnone). cbn [for_each rbind].
      destruct (IH (phase + 1) start saved)
        as (more & Hrun & Hidx & Hall & Hphases).
      exists more. rewrite Hrun.
      split; [reflexivity|]. split; [exact Hidx|]. split; [|exact Hphases].
      eapply Forall_impl; [|exact Hall].
      intros cf (Hph & Hrest). split; [|exact Hrest].
      unfold len in *. cbn [length]. lia.
Qed.

End LoopsMore.

(** X8. For every list of phase durations the chat loop never divides by
    zero: a phase with a zero or negative duration runs no iteration, so
    no progress is computed for it. When the loop completes, the frames
    saved are numbered 0, 1, 2, ... without gap, and the phase of id [k]
    and duration [n] contributes, in order, the frames of progress [i / n]
    for [i] from 0 to [n - 1] under its own id [k]: a skipped phase uses up
    its id, the phases after it are not renumbered. *)
Theorem chat_loop_skips_empty_phases (env : Env) (phase_frames : list Z) :
  chat_loop env phase_frames <> Raise ZeroDivisionError
  /\ forall n saved,
       chat_loop env phase_frames = Ok (n, saved) ->
       n = sum (List.map (Z.max 0) phase_frames)
       /\ List.map cf_index saved = range n
       /\ List.map (fun cf => (cf_phase cf, cf_progress cf)) saved
          = flat_map (fun '(phase, frames) =>
                        List.map
                          (fun i =>
                             (phase, (inject_Z i / inject_Z frames)%Q))
                          (range frames))
              (enumerate phase_frames)
       /\ Forall (fun cf =>
                    (0 <= cf_progress cf < 1)%Q
                    /\ create_chat_demo_frame env (cf_progress cf)
                         (cf_phase cf)
                       = Ok (cf_image cf))
            saved.
Proof.
  destruct (outer_loop_any env phase_frames 0 0 [])
    as (more & Hrun & Hidx & Hall & Hphases).
  unfold chat_loop, enumerate. rewrite Hrun.
  split; [discriminate|].
  intros n saved H. inversion H. subst n saved. clear H.
  split; [reflexivity|]. split; [|split; [exact Hphases|]].
  - rewrite Hidx. cbn [Z.add app]. rewrite <- (map_id (range _)) at 2.
    apply map_ext. intro j. lia.
  - eapply Forall_impl; [|exact Hall]. intros cf (_ & Hrest). exact Hrest.
Qed.

(** X8, on a timeline with an empty and a negative phase: the frame after
    them is in phase 3. *)
Lemma chat_loop_skips_empty_phases_witness :
  exists saved,
    chat_loop no_fonts [2; 0; -3; 1] = Ok (3, saved)
    /\ List.map (fun cf => (cf_phase cf, cf_progress cf)) saved
       = [ (0, (inject_Z 0 / inject_Z 2)%Q);
           (0, (inject_Z 1 / inject_Z 2)%Q);
           (3, (inject_Z 0 / inject_Z 1)%Q) ]
    /\ List.map cf_index saved = [0; 1; 2].
Proof.
  eexists. split; [reflexivity|].
  destruct (chat_loop_skips_empty_phases no_fonts [2; 0; -3; 1]) as [_ H].
  destruct (H _ _ eq_refl) as (_ & Hidx & Hphases & _).
  split; [exact Hphases | exact Hidx].
Defined.

(** X9. [main] never divides by zero, and when it runs to completion it
    has written 150 intro frames, 360 chat frames and 180 outro frames,
    each sequence numbered from 0 without gap; the chat frames are 90 of
    phase 0, then 180 of phase 1, then 90 of phase 2, as many as the phase
    durations add up to. *)
Theorem main_writes_every_frame (env : Env) :
  main env <> Raise ZeroDivisionError
  /\ forall out,
       main env = Ok out ->
       List.map fst (intro out) = range 150
       /\ List.map cf_index (chat out) = range 360
       /\ List.map cf_phase (chat out)
          = repeat 0 90 ++ repeat 1 180 ++ repeat 2 90
       /\ List.map fst (outro out) = range 180
       /\ sum [90; 180; 90] = 360.
Proof.
  destruct (create_intro_slide_returns env) as [intro_ops Hintro].
  destruct (create_outro_slide_returns env) as [outro_ops Houtro].
  rewrite (Main.main_output env _ _ Hintro Houtro).
  split; [discriminate|].
  intros out H. apply Ok_inj in H. subst out.
  cbn [intro chat outro].
  rewrite !map_map. cbn [fst].
  split; [apply map_id|].
  split; [|split; [|split; [apply map_id | reflexivity]]].
  - cbn [timeline]. rewrite !map_app, !map_map.
    cbn [chat_frame cf_index]. reflexivity.
  - cbn [timeline]. rewrite !map_app, !map_map.
    cbn [chat_frame cf_phase]. reflexivity.
Qed.

(** X9, on a machine without fonts. *)
Lemma main_writes_every_frame_witness :
  exists out,
    main no_fonts = Ok out
    /\ len (intro out) = 150 /\ len (chat out) = 360
    /\ len (outro out) = 180.
Proof.
  destruct (create_intro_slide_returns no_fonts) as [intro_ops Hintro].
  destruct (create_outro_slide_returns no_fonts) as [outro_ops Houtro].
  eexists. split; [exact (Main.main_output no_fonts _ _ Hintro Houtro)|].
  destruct (main_writes_every_frame no_fonts) as [_ H].
  destruct (H _ (Main.main_output no_fonts _ _ Hintro Houtro))
    as (Hi & Hc & _ & Ho & _).
  unfold len.
  rewrite <- (length_map fst (intro _)), Hi.
  rewrite <- (length_map cf_index (chat _)), Hc.
  rewrite <- (length_map fst (outro _)), Ho.
  repeat split.
Defined.

(** X10. Every blend factor that [main] passes to [Image.blend] lies in
    [0, 1). In the intro as in the outro 59 frames are blended: the 30
    frames of the fade-in (frame 0 with factor 0) and the last 29 frames,
    so the fade-out is one frame shorter than the fade-in and starts at
    factor 1/30. *)
Theorem fade_factors_bounded (env : Env) :
  exists out,
    main env = Ok out
    /\ Forall (fun saved =>
                 match blend_factor (snd saved) with
                 | Some alpha => (0 <= alpha < 1)%Q
                 | None => True
                 end)
         (intro out ++ outro out)
    /\ List.map fst (filter (fun saved => is_blend (snd saved)) (intro out))
       = range 30 ++ List.map (Z.add 121) (range 29)
    /\ List.map fst (filter (fun saved => is_blend (snd saved)) (outro out))
       = range 30 ++ List.map (Z.add 151) (range 29)
    /\ option_map (fun saved => blend_factor (snd saved))
         (nth_error (intro out) 121)
       = Some (Some (inject_Z 1 / inject_Z 30)%Q).
Proof.
  destruct (create_intro_slide_returns env) as [intro_ops Hintro].
  destruct (create_outro_slide_returns env) as [outro_ops Houtro].
  eexists. split; [exact (Main.main_output env _ _ Hintro Houtro)|].
  cbn [intro chat outro].
  assert (Hfade : forall slide i total,
             0 <= i < total -> 30 <= total ->
             match blend_factor
                     (fade_contract (Canvas DARK_BG slide) (new DARK_BG)
                        i 30 30 total) with
             | Some alpha => (0 <= alpha < 1)%Q
             | None => True
             end).
  { intros slide i total Hi Htotal. unfold fade_contract.
    destruct (i <? 30) eqn:E30.
    - apply Z.ltb_lt in E30. cbn [blend_factor].
      apply progress_in_range. lia.
    - apply Z.ltb_ge in E30.
      destruct (i >? total - 30) eqn:Eout; [|exact I].
      rewrite Z.gtb_ltb in Eout. apply Z.ltb_lt in Eout.
      cbn [blend_factor]. apply progress_in_range. lia. }
  split.
  { apply Forall_app. split; apply Forall_forall; intros [i frame] Hin;
      apply in_map_iff in Hin; destruct Hin as (j & Hj & Hrange);
      inversion Hj; subst; clear Hj; cbn [snd];
      unfold range in Hrange; apply in_map_iff in Hrange;
      destruct Hrange as (k & <- & Hk); apply in_seq in Hk;
      apply Hfade; lia. }
  repeat split.
Qed.

End LoopsMore.

(** ** More on the fonts and the slides *)

Module Slides.

(** X11. The bold flag only chooses the last resort: whenever Helvetica or
    the San Francisco font exists and loads at the requested size,
    [get_font] returns the same font with and without [bold]. *)
Theorem bold_only_picks_the_last_resort (env : Env) (size : Z) :
  (path_exists env HELVETICA && loadable env HELVETICA size)
  || (path_exists env SFNS && loadable env SFNS size) = true ->
  get_font env size true = get_font env size false.
Proof.
  intro H. unfold get_font, font_names. cbn [get_font_loop].
  unfold truetype.
  destruct (path_exists env HELVETICA), (loadable env HELVETICA size),
    (path_exists env SFNS), (loadable env SFNS size);
    try reflexivity; discriminate.
Qed.

(** X11, on a machine whose Helvetica fails to load. *)
Lemma bold_only_picks_the_last_resort_witness :
  get_font broken_helvetica 42 true = get_font broken_helvetica 42 false
  /\ get_font broken_helvetica 42 true = Ok (FreeTypeFont SFNS 42).
Proof.
  split.
  - apply (bold_only_picks_the_last_resort broken_helvetica 42).
    reflexivity.
  - reflexivity.
Defined.

(** A text anchored at half the free width, for the width of the box
    Pillow measures: where its measured box lies. *)
Lemma anchored_at_half (env : Env) (y : Z) (s : pystr) (font : Font)
    (fill : color) :
  exists x0 y0 x1 y1,
    textbbox env s font = (x0, y0, x1, y1)
    /\ (let op := Text ((WIDTH - (x1 - x0)) / 2, y) s font fill in
        off_centre env op = 2 * x0 - (WIDTH - (x1 - x0)) mod 2
        /\ (x0 = 0 -> horizontally_centered env op = true)
        /\ (x0 < 0 \/ 1 < x0 -> horizontally_centered env op = false)).
Proof.
  destruct (textbbox env s font) as [[[x0 y0] x1] y1] eqn:E.
  exists x0, y0, x1, y1. split; [reflexivity|]. cbv zeta.
  unfold horizontally_centered, off_centre, measured_box. rewrite E.
  unfold WIDTH. split; [|split].
  - Z.div_mod_to_equations. lia.
  - intros ->. apply andb_true_iff. rewrite !Z.leb_le.
    split; Z.div_mod_to_equations; lia.
  - intro H. apply andb_false_iff. rewrite !Z.leb_gt.
    destruct H as [H | H]; [left | right]; Z.div_mod_to_equations; lia.
Qed.

(** X12. Each slide is three text drawing calls on the dark background,
    each anchored at [x = (WIDTH - w) // 2] for the width
    [w = bbox[2] - bbox[0]] that Pillow measures. The measured box starts
    [bbox[0]] pixels right of the anchor, so its left margin exceeds its
    right margin by [2 * bbox[0] - (WIDTH - w) mod 2]: the text is centred
    to the pixel when [bbox[0]] is 0, and is off-centre when [bbox[0]] is
    negative or above 1, since the offset is taken off the width and not
    off the anchor. *)
Theorem slide_texts_anchored_by_width (env : Env) :
  exists intro_ops outro_ops,
    create_intro_slide env = Ok (Canvas DARK_BG intro_ops)
    /\ create_outro_slide env = Ok (Canvas DARK_BG outro_ops)
    /\ List.map text_of intro_ops
       = [str "OnHyper"; str "Where Agents Ship Code"; str "onhyper.io"]
    /\ List.map text_of outro_ops
       = [str "Start Building Today";
          str "Free Tier: 100 requests/day, 3 apps"; str "onhyper.io"]
    /\ Forall (fun op =>
                 exists x y s font fill x0 y0 x1 y1,
                   op = Text (x, y) s font fill
                   /\ textbbox env s font = (x0, y0, x1, y1)
                   /\ x = (WIDTH - (x1 - x0)) / 2
                   /\ off_centre env op
                      = 2 * x0 - (WIDTH - (x1 - x0)) mod 2
                   /\ (x0 = 0 -> horizontally_centered env op = true)
                   /\ (x0 < 0 \/ 1 < x0 ->
                       horizontally_centered env op = false))
         (intro_ops ++ outro_ops).
Proof.
  unfold create_intro_slide, create_outro_slide, on_canvas.
  rewrite !get_font_resolve.
  cbv [bind emit lift text ret]. cbn [app].
  do 2 eexists.
  split; [reflexivity|]. split; [reflexivity|].
  split; [reflexivity|]. split; [reflexivity|].
  cbn [app].
  repeat match goal with
    | |- Forall _ [] => constructor
    | |- Forall _ (Text (_, ?y) ?s ?font ?fill :: _) =>
        constructor;
        [ destruct (anchored_at_half env y s font fill)
            as (x0 & y0 & x1 & y1 & E & Hoff & Hmid & Hout);
          exists ((WIDTH - (x1 - x0)) / 2), y, s, font, fill, x0, y0, x1, y1;
          unfold bbox_width; rewrite E;
          repeat split; assumption
        | ]
    end.
Qed.

(** X12, on a machine whose fonts have a left offset of three pixels: the
    title of the intro slide is measured from 928 to 998, six pixels right
    of the middle of the 1920 pixels of the canvas. *)
Example slide_title_off_centre :
  exists title rest,
    create_intro_slide offset_fonts = Ok (Canvas DARK_BG (title :: rest))
    /\ text_of title = str "OnHyper"
    /\ measured_box offset_fonts title = (928, 420, 998, 430)
    /\ off_centre offset_fonts title = 6
    /\ horizontally_centered offset_fonts title = false.
Proof. do 2 eexists. repeat split. Qed.

End Slides.

(** ** The status icons *)

Module IconFacts.

Import GenerateIcons.

(** The boxes of the icon are in order from size 2 on, and the left bar
    is not below that. *)
Lemma boxes_in_order (size r g b : Z) :
  0 <= size ->
  for_each (icon_ops (draw_icon size r g b))
    (fun op _ => check_box (box_of op)) tt
  = if 2 <=? size then Ok tt else Raise ValueError.
Proof.
  intro H0. destruct (2 <=? size) eqn:E.
  - apply Z.leb_le in E.
    assert (Hstroke : 1 <= Z.max 1 (size / 16)) by apply Z.le_max_l.
    assert (Hstroke' : 16 * Z.max 1 (size / 16) <= size + 16).
    { destruct (Z.max_spec 1 (size / 16)) as [[_ ->] | [_ ->]];
        [Z.div_mod_to_equations; lia | lia]. }
    unfold draw_icon. cbv zeta. cbn [icon_ops for_each box_of].
    set (stroke := Z.max 1 (size / 16)) in *. clearbody stroke.
    unfold check_box.
    repeat match goal with
      | |- context [(?a <? ?b) || (?c <? ?d)] =>
          replace ((a <? b) || (c <? d)) with false;
          [ cbn [rbind]
          | symmetry; apply orb_false_iff; rewrite !Z.ltb_ge;
            split; Z.div_mod_to_equations; lia ]
      end.
    reflexivity.
  - apply Z.leb_gt in E.
    assert (Hcases : size = 0 \/ size = 1) by lia.
    destruct Hcases as [-> | ->]; reflexivity.
Qed.

Lemma create_icon_returns (env : IconEnv) (size : Z) (color_hex : pystr)
    (r g b : Z) :
  int16 env (slice color_hex 1 3) = Ok r ->
  int16 env (slice color_hex 3 5) = Ok g ->
  int16 env (slice color_hex 5 7) = Ok b ->
  create_icon env size color_hex
  = if 2 <=? size then Ok (draw_icon size r g b) else Raise ValueError.
Proof.
  intros Hr Hg Hb. unfold create_icon, new_rgba.
  destruct (size <? 0) eqn:E0.
  - apply Z.ltb_lt in E0. cbn [rbind].
    replace (2 <=? size) with false by (symmetry; apply Z.leb_gt; lia).
    reflexivity.
  - apply Z.ltb_ge in E0. cbn [rbind]. rewrite Hr, Hg, Hb. cbn [rbind].
    cbv zeta. rewrite boxes_in_order by exact E0.
    destruct (2 <=? size); reflexivity.
Qed.

Lemma create_icon_inv (env : IconEnv) (size : Z) (color_hex : pystr)
    (icon : Icon) :
  create_icon env size color_hex = Ok icon ->
  exists r g b,
    int16 env (slice color_hex 1 3) = Ok r
    /\ int16 env (slice color_hex 3 5) = Ok g
    /\ int16 env (slice color_hex 5 7) = Ok b
    /\ icon = draw_icon size r g b
    /\ 2 <= size.
Proof.
  intro H.
  assert (H0 : 0 <= size).
  { unfold create_icon, new_rgba in H.
    destruct (size <? 0) eqn:E0; [discriminate|]. now apply Z.ltb_ge in E0. }
  destruct (int16 env (slice color_hex 1 3)) as [r|e] eqn:Hr;
    [|unfold create_icon, new_rgba in H;
      destruct (size <? 0); [discriminate|];
      cbn [rbind] in H; rewrite Hr in H; discriminate].
  destruct (int16 env (slice color_hex 3 5)) as [g|e] eqn:Hg;
    [|unfold create_icon, new_rgba in H;
      destruct (size <? 0); [discriminate|];
      cbn [rbind] in H; rewrite Hr, Hg in H; discriminate].
  destruct (int16 env (slice color_hex 5 7)) as [b|e] eqn:Hb;
    [|unfold create_icon, new_rgba in H;
      destruct (size <? 0); [discriminate|];
      cbn [rbind] in H; rewrite Hr, Hg, Hb in H; discriminate].
  rewrite (create_icon_returns env size color_hex r g b Hr Hg Hb) in H.
  destruct (2 <=? size) eqn:E; [|discriminate].
  apply Z.leb_le in E. inversion H.
  exists r, g, b. repeat split. exact E.
Qed.

Lemma sq_mono (a b : Z) : 0 <= a <= b -> a * a <= b * b.
Proof. intros [H0 H1]. apply Z.mul_le_mono_nonneg; lia. Qed.

Ltac boxes :=
  unfold well_formed, inside;
  rewrite ?andb_true_iff, ?Z.leb_le.



(** X14. For a colour that parses, [create_icon] returns exactly for the
    sizes from 2 on, and the three white bars of the H are then well-formed
    boxes (corners in order) inside the bounding box of the disc, hence
    inside the canvas. Below that it raises [ValueError] and nothing is
    saved: Pillow refuses a negative size, and for the sizes 0 and 1 both
    vertical bars are the box (0, 1, 0, -1), whose bottom lies above its
    top ([y0 > y1]). *)
Theorem bars_stay_in_the_disc_box (env : IconEnv) (size : Z)
    (color_hex : pystr) (r g b : Z) :
  int16 env (slice color_hex 1 3) = Ok r ->
  int16 env (slice color_hex 3 5) = Ok g ->
  int16 env (slice color_hex 5 7) = Ok b ->
  (2 <= size ->
   exists icon disc left_bar right_bar cross_bar,
     create_icon env size color_hex = Ok icon
     /\ icon_ops icon
        = [ Ellipse disc (r, g, b, 255);
            IconRectangle left_bar (255, 255, 255, 255);
            IconRectangle right_bar (255, 255, 255, 255);
            IconRectangle cross_bar (255, 255, 255, 255) ]
     /\ forallb (fun bar => well_formed bar && inside bar disc)
          [left_bar; right_bar; cross_bar] = true)
  /\ (size < 2 -> create_icon env size color_hex = Raise ValueError)
  /\ (0 <= size < 2 ->
      firstn 2 (skipn 1 (icon_ops (draw_icon size r g b)))
      = [ IconRectangle (0, 1, 0, -1) (255, 255, 255, 255);
          IconRectangle (0, 1, 0, -1) (255, 255, 255, 255) ]
      /\ check_box (0, 1, 0, -1) = Raise ValueError).
Proof.
  intros Hr Hg Hb.
  rewrite (create_icon_returns env size color_hex r g b Hr Hg Hb).
  split; [|split].
  - intro H2.
    replace (2 <=? size) with true by (symmetry; apply Z.leb_le; exact H2).
    unfold draw_icon. cbv zeta.
    do 5 eexists. split; [reflexivity|]. cbn [icon_ops].
    split; [reflexivity|].
    assert (Hstroke : 1 <= Z.max 1 (size / 16)) by apply Z.le_max_l.
    assert (Hstroke' : 16 * Z.max 1 (size / 16) <= size + 16).
    { destruct (Z.max_spec 1 (size / 16)) as [[_ ->] | [_ ->]];
        [Z.div_mod_to_equations; lia | lia]. }
    set (stroke := Z.max 1 (size / 16)) in *. clearbody stroke.
    cbn [forallb]. boxes.
    repeat split; Z.div_mod_to_equations; lia.
  - intro Hsmall.
    replace (2 <=? size) with false by (symmetry; apply Z.leb_gt; exact Hsmall).
    reflexivity.
  - intro Hsmall.
    assert (Hcases : size = 0 \/ size = 1) by lia.
    destruct Hcases as [-> | ->]; split; reflexivity.
Qed.

(** X14, for the 48-pixel red icon. *)
Lemma bars_stay_in_the_disc_box_witness :
  exists icon,
    create_icon icon_machine 48 (str "#ef4444") = Ok icon
    /\ icon_ops icon
       = [ Ellipse (6, 6, 42, 42) (239, 68, 68, 255);
           IconRectangle (8, 9, 16, 39) (255, 255, 255, 255);
           IconRectangle (32, 9, 40, 39) (255, 255, 255, 255);
           IconRectangle (8, 23, 40, 25) (255, 255, 255, 255) ]
    /\ create_icon icon_machine 1 (str "#ef4444") = Raise ValueError.
Proof.
  destruct (bars_stay_in_the_disc_box icon_machine 48 (str "#ef4444")
              239 68 68 eq_refl eq_refl eq_refl)
    as (Hbig & _).
  destruct (Hbig ltac:(lia))
    as (icon & disc & l & r & c & Hicon & Hops & _).
  exists icon. split; [exact Hicon|]. split.
  - rewrite Hops. cbn in Hicon. inversion Hicon as [E]. rewrite <- E in Hops.
    cbn in Hops. inversion Hops. reflexivity.
  - destruct (bars_stay_in_the_disc_box icon_machine 1 (str "#ef4444")
                239 68 68 eq_refl eq_refl eq_refl)
      as (_ & Hsmall & _).
    apply Hsmall. lia.
Defined.

(** X15. For every size >= 4 the bars form an H centred in the disc: the
    two vertical bars are mirror images of each other about the centre
    column, equally high, and apart; the cross bar runs from the left edge
    of the left bar to the right edge of the right bar, within the height
    of the vertical bars, and is centred on the centre row. *)
Theorem bars_form_an_H (env : IconEnv) (size : Z) (color_hex : pystr)
    (icon : Icon) :
  create_icon env size color_hex = Ok icon ->
  4 <= size ->
  exists disc fill a0 b0 a1 b1 c0 d0 c1 d1 e0 f0 e1 f1 white,
    icon_ops icon
    = [ Ellipse disc fill;
        IconRectangle (a0, b0, a1, b1) white;
        IconRectangle (c0, d0, c1, d1) white;
        IconRectangle (e0, f0, e1, f1) white ]
    /\ a0 + c1 = 2 * (size / 2) /\ a1 + c0 = 2 * (size / 2)
    /\ b0 = d0 /\ b1 = d1 /\ b0 + b1 = 2 * (size / 2)
    /\ a1 < c0
    /\ e0 = a0 /\ e1 = c1
    /\ b0 <= f0 /\ f1 <= b1 /\ f0 + f1 = 2 * (size / 2).
Proof.
  intros H Hsize. apply create_icon_inv in H.
  destruct H as (r & g & b & _ & _ & _ & -> & _).
  unfold draw_icon. cbv zeta. cbn [icon_ops].
  do 15 eexists. split; [reflexivity|].
  assert (Hstroke : 1 <= Z.max 1 (size / 16)) by apply Z.le_max_l.
  assert (Hstroke' : 16 * Z.max 1 (size / 16) <= size + 16).
  { destruct (Z.max_spec 1 (size / 16)) as [[_ ->] | [_ ->]];
      [Z.div_mod_to_equations; lia | lia]. }
  set (stroke := Z.max 1 (size / 16)) in *. clearbody stroke.
  repeat split; Z.div_mod_to_equations; lia.
Qed.

(** X15, for the 128-pixel gray icon. *)
Lemma bars_form_an_H_witness :
  exists icon,
    create_icon icon_machine 128 (str "#6b7280") = Ok icon
    /\ icon_ops icon
       = [ Ellipse (16, 16, 112, 112) (107, 114, 128, 255);
           IconRectangle (20, 24, 44, 104) (255, 255, 255, 255);
           IconRectangle (84, 24, 108, 104) (255, 255, 255, 255);
           IconRectangle (20, 60, 108, 68) (255, 255, 255, 255) ].
Proof.
  eexists. split; [reflexivity|].
  destruct (bars_form_an_H icon_machine 128 (str "#6b7280") _ eq_refl)
    as (disc & _); [lia|].
  reflexivity.
Defined.

End IconFacts.

Module IconCorners.

Import GenerateIcons.

(** The outer corner of a vertical bar against the radius, for the sizes
    where the bounds on the floor divisions decide. *)
Lemma corner_large (size : Z) :
  22 <= size ->
  let padding := size / 8 in
  let r := (size - 2 * padding) / 2 in
  let c := size / 2 in
  let inner := r * 2 in
  let stroke := Z.max 1 (size / 16) in
  let bw := inner / 4 in
  let bh := inner - stroke * 2 in
  let dx := c + inner / 3 + bw / 2 - c in
  let dy := c + bh / 2 - c in
  r * r < dx * dx + dy * dy.
Proof.
  intros H. cbv zeta.
  set (padding := size / 8).
  set (r := (size - 2 * padding) / 2).
  assert (Hr : 3 * size - 8 <= 8 * r).
  { subst r padding. Z.div_mod_to_equations. lia. }
  assert (Hs : 12 * Z.max 1 (size / 16) <= 2 * r + 12).
  { destruct (Z.max_spec 1 (size / 16)) as [[_ ->] | [_ ->]];
      [Z.div_mod_to_equations; lia | lia]. }
  set (s := Z.max 1 (size / 16)) in *.
  assert (Hdx : 11 * r - 17
                <= 12 * (size / 2 + r * 2 / 3 + r * 2 / 4 / 2 - size / 2)).
  { Z.div_mod_to_equations. lia. }
  assert (Hdy : size / 2 + (r * 2 - s * 2) / 2 - size / 2 = r - s).
  { Z.div_mod_to_equations. lia. }
  rewrite Hdy.
  set (dx := size / 2 + r * 2 / 3 + r * 2 / 4 / 2 - size / 2) in *.
  assert (H8 : 8 <= r) by lia.
  clearbody dx s r. clear padding.
  pose proof (IconFacts.sq_mono (11 * r - 17) (12 * dx) ltac:(lia)) as H1.
  pose proof (IconFacts.sq_mono (10 * r - 12) (12 * (r - s)) ltac:(lia))
    as H2.
  assert (H3 : 8 * r <= r * r) by (apply Z.mul_le_mono_nonneg_r; lia).
  lia.
Qed.

Lemma corner_small (size : Z) :
  10 <= size < 22 ->
  let padding := size / 8 in
  let r := (size - 2 * padding) / 2 in
  let c := size / 2 in
  let inner := r * 2 in
  let stroke := Z.max 1 (size / 16) in
  let bw := inner / 4 in
  let bh := inner - stroke * 2 in
  let dx := c + inner / 3 + bw / 2 - c in
  let dy := c + bh / 2 - c in
  r * r < dx * dx + dy * dy.
Proof.
  intro H.
  assert (Hc : size = 10 \/ size = 11 \/ size = 12 \/ size = 13
               \/ size = 14 \/ size = 15 \/ size = 16 \/ size = 17
               \/ size = 18 \/ size = 19 \/ size = 20 \/ size = 21) by lia.
  repeat (destruct Hc as [-> | Hc]; [reflexivity|]). subst. reflexivity.
Qed.

(** X16. The H does not fit in the disc: for every size >= 10 the outer
    lower corner of the right bar lies farther from the centre of the disc
    than its radius (and so do, by symmetry, the other outer corners), so
    the white bars reach beyond the coloured disc onto the transparent
    canvas. *)
Theorem bar_corners_leave_the_disc (env : IconEnv) (size : Z)
    (color_hex : pystr) (icon : Icon) :
  create_icon env size color_hex = Ok icon ->
  10 <= size ->
  exists x0 y0 x1 y1 fill left_bar rx0 ry0 rx1 ry1 cross_bar white,
    icon_ops icon
    = [ Ellipse (x0, y0, x1, y1) fill;
        left_bar;
        IconRectangle (rx0, ry0, rx1, ry1) white;
        cross_bar ]
    /\ x0 + x1 = 2 * (size / 2) /\ y0 + y1 = 2 * (size / 2)
    /\ x1 - x0 = y1 - y0
    /\ (let center := size / 2 in
        let radius := (x1 - x0) / 2 in
        radius * radius
        < (rx1 - center) * (rx1 - center) + (ry1 - center) * (ry1 - center)).
Proof.
  intros H Hsize. apply IconFacts.create_icon_inv in H.
  destruct H as (r & g & b & _ & _ & _ & -> & _).
  unfold draw_icon. cbv zeta. cbn [icon_ops].
  do 12 eexists. split; [reflexivity|].
  split; [lia|]. split; [lia|]. split; [lia|].
  set (radius := (size - 2 * (size / 8)) / 2).
  replace ((size / 2 + radius - (size / 2 - radius)) / 2) with radius
    by (Z.div_mod_to_equations; lia).
  subst radius.
  destruct (Z_lt_le_dec size 22) as [Hsmall | Hlarge].
  - apply (corner_small size). lia.
  - apply (corner_large size Hlarge).
Qed.

(** X16, for the 16-pixel icon: the corner is at distance (5, 5) from the
    centre of a disc of radius 6. *)
Lemma bar_corners_leave_the_disc_witness :
  exists icon,
    create_icon icon_machine 16 (str "#eab308") = Ok icon
    /\ 6 * 6 < (13 - 8) * (13 - 8) + (13 - 8) * (13 - 8).
Proof.
  eexists. split; [reflexivity|].
  destruct (bar_corners_leave_the_disc icon_machine 16 (str "#eab308") _
              eq_refl)
    as (x0 & y0 & x1 & y1 & fill & l & rx0 & ry0 & rx1 & ry1 & c & w
        & Hops & _ & _ & _ & Hout); [lia|].
  cbn in Hops. inversion Hops. subst. exact Hout.
Defined.

End IconCorners.

Module IconFiles.

Import GenerateIcons.

Lemma NoDup_common_prefix (prefix : pystr) (names : list pystr) :
  NoDup names -> NoDup (List.map (app prefix) names).
Proof.
  induction 1 as [|name names Hnot _ IH]; cbn [List.map]; constructor.
  - intro Hin. apply in_map_iff in Hin.
    destruct Hin as (other & Heq & Hother).
    apply app_inv_head in Heq. subst other. exact (Hnot Hother).
  - exact IH.
Qed.

(** The file names of the icon set, colour by colour. *)
Lemma icon_names_differ :
  NoDup
    (List.map str
       [ "icon-green-16.png"; "icon-green-48.png"; "icon-green-128.png";
         "icon-yellow-16.png"; "icon-yellow-48.png"; "icon-yellow-128.png";
         "icon-red-16.png"; "icon-red-48.png"; "icon-red-128.png";
         "icon-gray-16.png"; "icon-gray-48.png"; "icon-gray-128.png"
       ]%string).
Proof.
  cbn [List.map].
  repeat (constructor; [cbn [In]; intuition discriminate|]).
  constructor.
Qed.

(** X17. When each of the four colour strings parses, [main] writes 12
    icons, colour by colour and size by size: [icon-<color>-<size>.png]
    joined to the directory of the script, no two under the same path,
    each a square canvas of the size in its name. *)
Theorem main_writes_twelve_icons (env : IconEnv) :
  Forall (fun color_hex =>
            exists r g b,
              int16 env (slice color_hex 1 3) = Ok r
              /\ int16 env (slice color_hex 3 5) = Ok g
              /\ int16 env (slice color_hex 5 7) = Ok b)
    (List.map snd COLORS) ->
  exists saved,
    GenerateIcons.main env = Ok saved
    /\ List.map fst saved
       = List.map (fun name => path_join (SCRIPT_DIR env) (str name))
           [ "icon-green-16.png"; "icon-green-48.png"; "icon-green-128.png";
             "icon-yellow-16.png"; "icon-yellow-48.png";
             "icon-yellow-128.png";
             "icon-red-16.png"; "icon-red-48.png"; "icon-red-128.png";
             "icon-gray-16.png"; "icon-gray-48.png"; "icon-gray-128.png"
           ]%string
    /\ NoDup (List.map fst saved)
    /\ List.map (fun file => icon_size (snd file)) saved
       = [ (16, 16); (48, 48); (128, 128); (16, 16); (48, 48); (128, 128);
           (16, 16); (48, 48); (128, 128); (16, 16); (48, 48); (128, 128) ].
Proof.
  intro Hparse. cbn [List.map COLORS snd] in Hparse.
  repeat match goal with
    | H : Forall _ (_ :: _) |- _ => inversion H; subst; clear H
    | H : Forall _ [] |- _ => clear H
    | H : exists _, _ |- _ => destruct H
    | H : _ /\ _ |- _ => destruct H
    end.
  unfold GenerateIcons.main, COLORS, SIZES, create_icon.
  cbn [for_each rbind].
  repeat match goal with
    | H : int16 env _ = Ok _ |- _ => rewrite H; clear H
    end.
  cbn [rbind app].
  eexists. split; [reflexivity|].
  cbn [List.map fst snd]. split; [reflexivity|]. split; [|reflexivity].
  assert (Hjoin : exists prefix,
             forall name,
               startswith_sep name = false ->
               path_join (SCRIPT_DIR env) name = prefix ++ name).
  { unfold path_join.
    destruct (match SCRIPT_DIR env with
              | [] => true
              | _ :: _ => endswith_sep (SCRIPT_DIR env)
              end).
    - exists (SCRIPT_DIR env). intros name ->. reflexivity.
    - exists (SCRIPT_DIR env ++ [sep]). intros name ->.
      now rewrite <- app_assoc. }
  destruct Hjoin as [prefix Hjoin].
  rewrite !Hjoin by reflexivity.
  apply (NoDup_common_prefix prefix _ icon_names_differ).
Qed.

(** X17, on the example machine. *)
Lemma main_writes_twelve_icons_witness :
  exists saved,
    GenerateIcons.main icon_machine = Ok saved
    /\ nth_error (List.map fst saved) 5
       = Some (str "/ext/icons/icon-yellow-128.png").
Proof.
  destruct (main_writes_twelve_icons icon_machine)
    as (saved & Hmain & Hpaths & _).
  { repeat constructor; do 3 eexists; repeat split; reflexivity. }
  exists saved. split; [exact Hmain|]. rewrite Hpaths. reflexivity.
Defined.

End IconFiles.

(** ** Frames that no longer change *)

Module StaticFrames.

Lemma visible_todos_saturated (progress : Q) :
  (1 # 2 <= progress)%Q -> visible_todos progress 2 = todos.
Proof.
  intro H. unfold visible_todos, preview_opacity. cbn [Z.eqb Pos.eqb].
  rewrite min_saturated.
  - reflexivity.
  - apply Qle_trans with ((1 # 2) * 2)%Q; [now vm_compute|].
    apply Qmult_le_compat_r; [exact H | now vm_compute].
Qed.

(** X18. Once its reveal has saturated a phase renders one and the same
    image: all frames of phase 1 with progress >= 2/3 are equal, all frames
    of phase 2 with progress > 1/2 are equal, and in a phase above 2 (as in
    phase 0) the frame does not depend on progress at all. *)
Theorem frames_freeze_after_saturation (env : Env) (p q : Q) (phase : Z) :
  exists img,
    create_chat_demo_frame env p phase = Ok img
    /\ (phase = 1 -> (2 # 3 <= p)%Q -> (2 # 3 <= q)%Q ->
        create_chat_demo_frame env q phase = Ok img)
    /\ (phase = 2 -> (1 # 2 < p)%Q -> (1 # 2 < q)%Q ->
        create_chat_demo_frame env q phase = Ok img)
    /\ (2 < phase -> create_chat_demo_frame env q phase = Ok img).
Proof.
  exists (Canvas DARKER_BG (display_list env p phase)).
  split; [apply create_chat_demo_frame_draws|].
  assert (Hfull : forall r,
             (2 # 3 <= r)%Q -> visible_text r 1 = agent_response).
  { intros r Hr. unfold visible_text. cbn [Z.eqb Pos.eqb]. cbv zeta.
    rewrite (chars_to_show_saturated r Hr), Z.ltb_irrefl.
    apply slice_to_all. lia. }
  split; [|split].
  - intros -> Hp Hq. rewrite create_chat_demo_frame_draws.
    unfold display_list, agent_bubble, preview.
    cbn [Z.geb Z.compare Pos.compare Pos.compare_cont].
    rewrite (Hfull p Hp), (Hfull q Hq). reflexivity.
  - intros -> Hp Hq. rewrite create_chat_demo_frame_draws.
    unfold display_list, agent_bubble, preview, url_display, visible_text.
    cbn [Z.geb Z.eqb Z.compare Pos.compare Pos.compare_cont Pos.eqb].
    rewrite (visible_todos_saturated p) by (apply Qlt_le_weak, Hp).
    rewrite (visible_todos_saturated q) by (apply Qlt_le_weak, Hq).
    apply Qltb_lt in Hp, Hq. rewrite Hp, Hq. reflexivity.
  - intro Hbig. rewrite create_chat_demo_frame_draws.
    assert (E1 : (phase =? 1) = false) by (apply Z.eqb_neq; lia).
    assert (E2 : (phase =? 2) = false) by (apply Z.eqb_neq; lia).
    unfold display_list, agent_bubble, preview, url_display, visible_text,
      visible_todos, preview_opacity.
    rewrite E1, E2. reflexivity.
Qed.

End StaticFrames.
